(** * exceptiongroup: the traceback formatter of [_formatting.py]

    A shallow embedding of [_ExceptionPrintContext] and of
    [traceback_exception_format], the generator that renders a tree of
    [TracebackException] objects as indented, framed text.

    Python text is a [string]; every [ascii] stands for the code point of
    the same number, so the texts covered are those with code points below
    256.  Python integers are [Z]. *)

From Stdlib Require Import ZArith List String Ascii Bool Lia Arith.
From Stdlib Require Import DecimalString.
Import ListNotations.
Local Open Scope string_scope.
Local Open Scope Z_scope.

(** ** Python primitives used by the module *)

Module Py.

(** [s * n] on text: [n] copies of [s], none when [n <= 0]. *)
Fixpoint str_repeat (s : string) (n : nat) : string :=
  match n with
  | O => ""
  | S n' => s ++ str_repeat s n'
  end.

Definition str_mul (s : string) (n : Z) : string := str_repeat s (Z.to_nat n).

(** [str(n)] and [f"{n}"] for an integer. *)
Definition str_of_int (n : Z) : string := NilZero.string_of_int (Z.to_int n).

(** [range(n)]. *)
Definition range (n : Z) : list Z := map Z.of_nat (seq 0 (Z.to_nat n)).

(** [l[i]]: negative indices count from the end, anything out of range
    raises [IndexError] ([None] here). *)
Definition getitem {A : Type} (l : list A) (i : Z) : option A :=
  let len := Z.of_nat (List.length l) in
  if i <? 0
  then (if len + i <? 0 then None else nth_error l (Z.to_nat (len + i)))
  else nth_error l (Z.to_nat i).

(** The line boundaries of [str.splitlines] among the code points below 256:
    LF, VT, FF, CR, FS, GS, RS and NEL. *)
Definition is_linebreak (c : ascii) : bool :=
  match nat_of_ascii c with
  | 10%nat | 11%nat | 12%nat | 13%nat | 28%nat | 29%nat | 30%nat | 133%nat => true
  | _ => false
  end.

Definition CR : ascii := ascii_of_nat 13.
Definition LF : ascii := ascii_of_nat 10.

(** [text.splitlines(True)]: the lines of [text], each with its line end;
    CR LF is one line end. *)
Fixpoint splitlines (text : string) : list string :=
  match text with
  | EmptyString => []
  | String c rest =>
      if Ascii.eqb c CR then
        match rest with
        | String c' rest' =>
            if Ascii.eqb c' LF
            then String c (String c' "") :: splitlines rest'
            else String c "" :: splitlines rest
        | EmptyString => [String c ""]
        end
      else if is_linebreak c then String c "" :: splitlines rest
      else
        match splitlines rest with
        | [] => [String c ""]
        | line :: lines => String c line :: lines
        end
  end.

(** Whether the text begins with LF, which after CR ends the same line. *)
Definition starts_with_LF (s : string) : bool :=
  match s with
  | String c _ => Ascii.eqb c LF
  | EmptyString => false
  end.

(** [''.join(parts)]. *)
Fixpoint join (parts : list string) : string :=
  match parts with
  | [] => ""
  | part :: parts' => part ++ join parts'
  end.

(** No character of [s] is a line boundary. *)
Fixpoint no_linebreak (s : string) : bool :=
  match s with
  | EmptyString => true
  | String c s' => negb (is_linebreak c) && no_linebreak s'
  end.

(** [textwrap.indent(text, prefix, lambda line: True)]: the predicate
    accepts every line, so every line gets the prefix. *)
Definition textwrap_indent (text prefix : string) : string :=
  join (map (fun line => prefix ++ line) (splitlines text)).

End Py.

Definition nl : string := String Py.LF "".

(** ** Module constants *)

Definition default_max_group_width : Z := 15.
Definition default_max_group_depth : Z := 10.

Definition _cause_message : string :=
  nl ++ "The above exception was the direct cause " ++ "of the following exception:" ++ nl ++ nl.

Definition _context_message : string :=
  nl ++ "During handling of the above exception, " ++ "another exception occurred:" ++ nl ++ nl.

(** ** The captured exception tree

    [traceback.TracebackException] as the formatter reads it.  [stack] is
    the [StackSummary], a list of frames; [format_exception_only] holds the
    texts that the method of that name yields. *)

Unset Elimination Schemes.
Inductive TracebackException (FrameSummary : Type) : Type :=
  mkTracebackException {
    __cause__ : option (TracebackException FrameSummary);
    __context__ : option (TracebackException FrameSummary);
    __suppress_context__ : bool;
    exceptions : option (list (TracebackException FrameSummary));
    stack : list FrameSummary;
    format_exception_only : list string
  }.
Set Elimination Schemes.

Arguments mkTracebackException {FrameSummary}.
Arguments __cause__ {FrameSummary}.
Arguments __context__ {FrameSummary}.
Arguments __suppress_context__ {FrameSummary}.
Arguments exceptions {FrameSummary}.
Arguments stack {FrameSummary}.
Arguments format_exception_only {FrameSummary}.

(** ** The print context *)

Record _ExceptionPrintContext : Type := mkCtx {
  seen : list Z;
  exception_group_depth : Z;
  need_close : bool
}.

(** [_ExceptionPrintContext.__init__]. *)
Definition new_ctx : _ExceptionPrintContext :=
  {| seen := []; exception_group_depth := 0; need_close := false |}.

Definition set_depth (d : Z) (ctx : _ExceptionPrintContext) : _ExceptionPrintContext :=
  {| seen := seen ctx; exception_group_depth := d; need_close := need_close ctx |}.

Definition set_need_close (b : bool) (ctx : _ExceptionPrintContext) : _ExceptionPrintContext :=
  {| seen := seen ctx; exception_group_depth := exception_group_depth ctx; need_close := b |}.

(** [_ExceptionPrintContext.indent]. *)
Definition indent (ctx : _ExceptionPrintContext) : string :=
  Py.str_mul " " (2 * exception_group_depth ctx).

(** ** Generators over a shared print context

    A generator is run to exhaustion against the one context object that
    the whole recursion mutates.  Every yielded text is recorded with the
    value [exception_group_depth] had when it was yielded. *)

Record Yielded : Type := mkYielded { at_depth : Z; text : string }.

Inductive exn : Type := AssertionError | IndexError.

Inductive outcome (A : Type) : Type :=
  | Returned (a : A) (ctx : _ExceptionPrintContext) (out : list Yielded)
  | Raised (e : exn) (ctx : _ExceptionPrintContext) (out : list Yielded)
  | OutOfFuel.

Arguments Returned {A}.
Arguments Raised {A}.
Arguments OutOfFuel {A}.

Definition Gen (A : Type) : Type := _ExceptionPrintContext -> outcome A.

Definition ret {A : Type} (a : A) : Gen A := fun ctx => Returned a ctx [].

Definition bind {A B : Type} (m : Gen A) (k : A -> Gen B) : Gen B :=
  fun ctx =>
    match m ctx with
    | Returned a ctx1 out1 =>
        match k a ctx1 with
        | Returned b ctx2 out2 => Returned b ctx2 (out1 ++ out2)%list
        | Raised e ctx2 out2 => Raised e ctx2 (out1 ++ out2)%list
        | OutOfFuel => OutOfFuel
        end
    | Raised e ctx1 out1 => Raised e ctx1 out1
    | OutOfFuel => OutOfFuel
    end.

Declare Scope gen_scope.
Delimit Scope gen_scope with gen.
Notation "x <- m ;; k" := (bind m (fun x => k))
  (at level 61, m at next level, right associativity) : gen_scope.
Notation "m ;; k" := (bind m (fun _ => k))
  (at level 61, right associativity) : gen_scope.
Local Open Scope gen_scope.

Definition get_ctx : Gen _ExceptionPrintContext := fun ctx => Returned ctx ctx [].
Definition modify_ctx (f : _ExceptionPrintContext -> _ExceptionPrintContext) : Gen unit :=
  fun ctx => Returned tt (f ctx) [].
Definition raise {A : Type} (e : exn) : Gen A := fun ctx => Raised e ctx [].
Definition out_of_fuel {A : Type} : Gen A := fun _ => OutOfFuel.

(** [yield s]. *)
Definition yield (s : string) : Gen unit :=
  fun ctx => Returned tt ctx [mkYielded (exception_group_depth ctx) s].

(** [for x in l: body(x)]. *)
Fixpoint for_each {A : Type} (l : list A) (body : A -> Gen unit) : Gen unit :=
  match l with
  | [] => ret tt
  | x :: l' => body x ;; for_each l' body
  end.

Definition when (b : bool) (m : Gen unit) : Gen unit := if b then m else ret tt.

(** The argument of [emit]: one text, or an iterable of texts. *)
Inductive text_gen : Type :=
  | Str (s : string)
  | Texts (l : list string).

(** [_ExceptionPrintContext.emit]. *)
Definition emit (tg : text_gen) (margin_char : option string) : Gen unit :=
  ctx <- get_ctx ;;
  let margin_char := match margin_char with None => "|" | Some m => m end in
  let indent_str := indent ctx in
  let indent_str :=
    if exception_group_depth ctx =? 0 then indent_str
    else indent_str ++ margin_char ++ " " in
  match tg with
  | Str s => yield (Py.textwrap_indent s indent_str)
  | Texts l => for_each l (fun s => yield (Py.textwrap_indent s indent_str))
  end.

(** ** [traceback_exception_format] *)

Section Format.

Context {FrameSummary : Type}.

(** [StackSummary.format], which the standard library supplies. *)
Variable StackSummary_format : list FrameSummary -> list string.

(** The module globals [max_group_width] and [max_group_depth], read at
    every use. *)
Variable max_group_width : Z.
Variable max_group_depth : Z.

Local Abbreviation TE := (TracebackException FrameSummary).

(** One turn of the [while exc:] loop: the message and the exception that
    the [if]/[elif]/[else] picks. *)
Definition chained (exc : TE) : option string * option TE :=
  match __cause__ exc with
  | Some c => (Some _cause_message, Some c)
  | None =>
      match __context__ exc with
      | Some c =>
          if negb (__suppress_context__ exc)
          then (Some _context_message, Some c)
          else (None, None)
      | None => (None, None)
      end
  end.

(** The [while exc:] loop: the [output] list it builds, in the order of
    the [append]s.  The loop ends at the first [chained_exc] that is
    [None]; it follows links of a finite tree. *)
Fixpoint chain_output (exc : TE) : list (option string * TE) :=
  match exc with
  | mkTracebackException cause context suppress excs stk only =>
      let self := mkTracebackException cause context suppress excs stk only in
      match cause with
      | Some c => (Some _cause_message, self) :: chain_output c
      | None =>
          match context with
          | Some c =>
              if negb suppress
              then (Some _context_message, self) :: chain_output c
              else [(None, self)]
          | None => [(None, self)]
          end
      end
  end.

Definition slot_header (ctx : _ExceptionPrintContext) (i : Z) (title : string) : string :=
  indent ctx ++ (if i =? 0 then "+-" else "  ")
  ++ "+---------------- " ++ title ++ " ----------------" ++ nl.

Definition closing_frame (ctx : _ExceptionPrintContext) : string :=
  indent ctx ++ "+------------------------------------" ++ nl.

Definition incr_depth : Gen unit :=
  modify_ctx (fun ctx => set_depth (exception_group_depth ctx + 1) ctx).

Definition decr_depth : Gen unit :=
  modify_ctx (fun ctx => set_depth (exception_group_depth ctx - 1) ctx).

(** The number [n] of slots of a group of [num_excs] exceptions. *)
Definition n_slots (num_excs : Z) : Z :=
  if num_excs <=? max_group_width then num_excs else max_group_width + 1.

Section Body.

(** The recursive call [exc.exceptions[i].format(chain=chain, _ctx=_ctx)]. *)
Variable format_rec : TE -> bool -> Gen unit.

(** The body of [for i in range(n)].  [max_group_width] is an integer
    here: with [None] the comparison [num_excs <= max_group_width] that
    comes first has already raised, so the [is not None] test holds. *)
Definition slot (excs : list TE) (chain : bool) (num_excs n i : Z) : Gen unit :=
  let last_exc := i =? n - 1 in
  when last_exc (modify_ctx (set_need_close true)) ;;
  let truncated := i >=? max_group_width in
  let title := if negb truncated then Py.str_of_int (i + 1) else "..." in
  ctx <- get_ctx ;;
  yield (slot_header ctx i title) ;;
  incr_depth ;;
  (if negb truncated then
     match Py.getitem excs i with
     | Some child => format_rec child chain
     | None => raise IndexError
     end
   else
     let remaining := num_excs - max_group_width in
     let plural := if remaining >? 1 then "s" else "" in
     emit (Str ("and " ++ Py.str_of_int remaining ++ " more exception" ++ plural ++ nl)) None) ;;
  ctx <- get_ctx ;;
  when (last_exc && need_close ctx)
       (yield (closing_frame ctx) ;; modify_ctx (set_need_close false)) ;;
  decr_depth.

(** The [else] branch: an exception group within the depth limit. *)
Definition format_group (exc : TE) (excs : list TE) (chain : bool) : Gen unit :=
  ctx <- get_ctx ;;
  let is_toplevel := exception_group_depth ctx =? 0 in
  when is_toplevel incr_depth ;;
  when (negb (Nat.eqb (List.length (stack exc)) 0))
       (emit (Str ("Exception Group Traceback (most recent call last):" ++ nl))
             (if is_toplevel then Some "+" else None) ;;
        emit (Texts (StackSummary_format (stack exc))) None) ;;
  emit (Texts (format_exception_only exc)) None ;;
  let num_excs := Z.of_nat (List.length excs) in
  let n := n_slots num_excs in
  modify_ctx (set_need_close false) ;;
  for_each (Py.range n) (slot excs chain num_excs n) ;;
  when is_toplevel
       (ctx <- get_ctx ;;
        if exception_group_depth ctx =? 1
        then modify_ctx (set_depth 0)
        else raise AssertionError).

(** The body of [for msg, exc in reversed(output)]. *)
Definition block (chain : bool) (item : option string * TE) : Gen unit :=
  let (msg, exc) := item in
  match msg with
  | Some m => emit (Str m) None
  | None => ret tt
  end ;;
  match exceptions exc with
  | None =>
      when (negb (Nat.eqb (List.length (stack exc)) 0))
           (emit (Str ("Traceback (most recent call last):" ++ nl)) None ;;
            emit (Texts (StackSummary_format (stack exc))) None) ;;
      emit (Texts (format_exception_only exc)) None
  | Some excs =>
      ctx <- get_ctx ;;
      if exception_group_depth ctx >? max_group_depth then
        emit (Str ("... (max_group_depth is " ++ Py.str_of_int max_group_depth ++ ")" ++ nl)) None
      else format_group exc excs chain
  end.

(** The function body after [_ctx] has been settled. *)
Definition format_body (self : TE) (chain : bool) : Gen unit :=
  let output := if chain then chain_output self else [(None, self)] in
  for_each (rev output) (block chain).

End Body.

(** The generator, run to exhaustion; [fuel] bounds the nesting of the
    recursive [format] calls. *)
Fixpoint format (fuel : nat) (self : TE) (chain : bool) : Gen unit :=
  match fuel with
  | O => out_of_fuel
  | S fuel' => format_body (format fuel') self chain
  end.

(** [traceback_exception_format(self, chain=chain, _ctx=_ctx)]. *)
Definition traceback_exception_format
    (fuel : nat) (self : TE) (chain : bool) (_ctx : option _ExceptionPrintContext)
  : outcome unit :=
  let ctx := match _ctx with None => new_ctx | Some c => c end in
  format fuel self chain ctx.

End Format.

(** What a run yielded, with the depth at each yield. *)
Definition yields_of {A : Type} (r : outcome A) : list Yielded :=
  match r with
  | Returned _ _ out => out
  | Raised _ _ out => out
  | OutOfFuel => []
  end.

(** The texts of a finished run, in the order they were yielded. *)
Definition lines_of {A : Type} (r : outcome A) : list string :=
  match r with
  | Returned _ _ out => map text out
  | Raised _ _ out => map text out
  | OutOfFuel => []
  end.

(** A generator run from a context in [P] returns, leaves the context in
    [Q], and yields only texts in [R]. *)
Definition triple (P : _ExceptionPrintContext -> Prop) (m : Gen unit)
    (Q : _ExceptionPrintContext -> Prop) (R : Yielded -> Prop) : Prop :=
  forall ctx, P ctx ->
    exists ctx' out, m ctx = Returned tt ctx' out /\ Q ctx' /\ Forall R out.

(** ** Measures and shapes used in the statements *)

(** A bound on the nesting of [format] calls that rendering [exc] makes. *)
Fixpoint rank {FrameSummary : Type} (exc : TracebackException FrameSummary) : nat :=
  match exc with
  | mkTracebackException cause context _ excs _ _ =>
      S (Nat.max
           (match cause with Some c => rank c | None => O end)
           (Nat.max
              (match context with Some c => rank c | None => O end)
              (match excs with
               | Some l =>
                   (fix rank_list (l : list (TracebackException FrameSummary)) : nat :=
                      match l with
                      | [] => O
                      | x :: l' => Nat.max (rank x) (rank_list l')
                      end) l
               | None => O
               end)))
  end.

(** What a text yielded at depth [d] looks like: a block whose every line
    is behind the margin, the header of a group entered at depth 0, the
    header line of a slot, or a closing frame. *)
Inductive frame_line (d : Z) (s : string) : Prop :=
  | margin_lines :
      Forall (fun line => String.prefix (Py.str_mul " " (2 * d) ++ "| ") line = true)
             (Py.splitlines s) ->
      frame_line d s
  | toplevel_header :
      d = 1 ->
      s = "  + Exception Group Traceback (most recent call last):" ++ nl ->
      frame_line d s
  | slot_line (i : Z) (title : string) :
      s = Py.str_mul " " (2 * d) ++ (if i =? 0 then "+-" else "  ")
          ++ "+---------------- " ++ title ++ " ----------------" ++ nl ->
      frame_line d s
  | close_line :
      s = Py.str_mul " " (2 * d) ++ "+------------------------------------" ++ nl ->
      frame_line d s.

Definition framed (y : Yielded) : Prop :=
  at_depth y > 0 -> frame_line (at_depth y) (text y).

(** What the proofs ask of the recursive call on a child: it returns,
    restores the depth and yields framed texts. *)
Definition child_ok {FrameSummary : Type}
    (format_rec : TracebackException FrameSummary -> bool -> Gen unit)
    (chain : bool) (child : TracebackException FrameSummary) : Prop :=
  forall d,
    triple (fun c => exception_group_depth c = d) (format_rec child chain)
           (fun c => exception_group_depth c = d) framed.

(** [m], run from [ctx], returns with [ctx'] after yielding [out]. *)
Definition runs (m : Gen unit) (ctx ctx' : _ExceptionPrintContext) (out : list Yielded) : Prop :=
  m ctx = Returned tt ctx' out.

(** [m'] does what [m] does wherever [m] has fuel enough. *)
Definition refines {A : Type} (m m' : Gen A) : Prop :=
  forall ctx, m ctx <> OutOfFuel -> m' ctx = m ctx.

(** The margin property as the specification words it: at a depth above
    zero every line of a yielded text is behind the indentation and a
    margin, ["| "] or, for a top-level header, ["+ "]. *)
Definition margin_prefixed (y : Yielded) : Prop :=
  at_depth y > 0 ->
  Forall (fun line =>
            String.prefix (Py.str_mul " " (2 * at_depth y) ++ "| ") line = true
            \/ String.prefix (Py.str_mul " " (2 * at_depth y) ++ "+ ") line = true)
         (Py.splitlines (text y)).

(** The blocks of text that an argument of [emit] holds. *)
Definition blocks_of (tg : text_gen) : list string :=
  match tg with
  | Str s => [s]
  | Texts l => l
  end.

(** The [indent_str] of [emit], and what [emit] yields in all. *)
Definition emit_prefix (ctx : _ExceptionPrintContext) (margin_char : option string) : string :=
  if exception_group_depth ctx =? 0 then indent ctx
  else indent ctx ++ match margin_char with None => "|" | Some m => m end ++ " ".

Definition emit_out (ctx : _ExceptionPrintContext) (tg : text_gen)
    (margin_char : option string) : list Yielded :=
  map (fun s => mkYielded (exception_group_depth ctx)
                          (Py.textwrap_indent s (emit_prefix ctx margin_char)))
      (blocks_of tg).

(** Recognisers of the two frame lines that [format] builds from
    [indent()]: a text with its leading spaces removed. *)
Fixpoint lstrip_spaces (s : string) : string :=
  match s with
  | String c s' => if Ascii.eqb c " " then lstrip_spaces s' else s
  | EmptyString => EmptyString
  end.

Definition is_slot_header (s : string) : bool :=
  String.prefix "+-+---------------- " (lstrip_spaces s)
  || String.prefix "+---------------- " (lstrip_spaces s).

Definition is_closing_frame (s : string) : bool :=
  String.eqb (lstrip_spaces s) ("+------------------------------------" ++ nl).

Definition no_frame_line (y : Yielded) : Prop :=
  is_slot_header (text y) = false /\ is_closing_frame (text y) = false.

(** ** The chain rule as the specification words it

    A node is linked to its cause when it has one, else to its context
    when it has one and does not suppress it; the slots of a chain are
    listed oldest ancestor first, the node itself last, the first without
    a separator and every later one with the message of the link that
    led from it. *)

Inductive linked {FrameSummary : Type} (exc : TracebackException FrameSummary)
  : string -> TracebackException FrameSummary -> Prop :=
  | link_cause c :
      __cause__ exc = Some c -> linked exc _cause_message c
  | link_context c :
      __cause__ exc = None -> __context__ exc = Some c ->
      __suppress_context__ exc = false ->
      linked exc _context_message c.

Definition unlinked {FrameSummary : Type} (exc : TracebackException FrameSummary) : Prop :=
  __cause__ exc = None
  /\ (__context__ exc = None \/ __suppress_context__ exc = true).

Inductive render_order {FrameSummary : Type}
  : TracebackException FrameSummary ->
    list (option string * TracebackException FrameSummary) -> Prop :=
  | order_stop exc : unlinked exc -> render_order exc [(None, exc)]
  | order_link exc msg older slots :
      linked exc msg older -> render_order older slots ->
      render_order exc (slots ++ [(Some msg, exc)]).

(** ** Leaves

    A leaf whose chain, as far as it is followed, holds leaves only; and
    what [format] yields for it from the context [ctx]. *)

Definition leaf_chain {FrameSummary : Type} (exc : TracebackException FrameSummary) : Prop :=
  Forall (fun slot => exceptions (snd slot) = None) (chain_output exc).

Definition leaf_block_out {FrameSummary : Type}
    (StackSummary_format : list FrameSummary -> list string)
    (ctx : _ExceptionPrintContext)
    (slot : option string * TracebackException FrameSummary) : list Yielded :=
  (match fst slot with Some m => emit_out ctx (Str m) None | None => [] end
   ++ (if Nat.eqb (List.length (stack (snd slot))) 0 then []
       else emit_out ctx (Str ("Traceback (most recent call last):" ++ nl)) None
            ++ emit_out ctx (Texts (StackSummary_format (stack (snd slot)))) None)
   ++ emit_out ctx (Texts (format_exception_only (snd slot))) None)%list.

Definition leaf_chain_out {FrameSummary : Type}
    (StackSummary_format : list FrameSummary -> list string)
    (ctx : _ExceptionPrintContext) (exc : TracebackException FrameSummary) : list Yielded :=
  flat_map (leaf_block_out StackSummary_format ctx) (rev (chain_output exc)).

(** The number of closing frames among yielded texts. *)
Definition closing_frames (out : list Yielded) : nat :=
  List.length (filter (fun y => is_closing_frame (text y)) out).

(** ** Sample trees

    Frames are held as the text [StackSummary.format] gives for them. *)

Definition preformatted (frames : list string) : list string := frames.

Definition leaf (only : string) : TracebackException string :=
  mkTracebackException None None false None [] [only ++ nl].

Definition group (only : string) (excs : list (TracebackException string))
  : TracebackException string :=
  mkTracebackException None None false (Some excs) [] [only ++ nl].

(** [traceback_exception_format] with the module's constants. *)
Definition render (fuel : nat) (exc : TracebackException string) (chain : bool)
  : outcome unit :=
  traceback_exception_format preformatted default_max_group_width default_max_group_depth
                             fuel exc chain None.

(** [raise ValueError("bad") from None] inside a handler of a [KeyError]:
    the context is kept and suppressed. *)
Definition suppressed_sample : TracebackException string :=
  mkTracebackException None (Some (leaf "KeyError: 'k'")) true None []
                       ["ValueError: bad" ++ nl].

(** [raise ValueError("bad") from key_error]. *)
Definition caused_sample : TracebackException string :=
  mkTracebackException (Some (leaf "KeyError: 'k'")) None false None []
                       ["ValueError: bad" ++ nl].

(** A group of [k] plain exceptions. *)
Definition leaves (k : nat) : list (TracebackException string) :=
  map (fun i => leaf ("ValueError: " ++ Py.str_of_int (Z.of_nat i))) (seq 1 k).

Definition wide_group (k : nat) : TracebackException string :=
  group "ExceptionGroup: many" (leaves k).

(** The line that stands for the exceptions left out of a group. *)
Definition more_exceptions_line (remaining : Z) : string :=
  "and " ++ Py.str_of_int remaining ++ " more exception"
  ++ (if remaining >? 1 then "s" else "") ++ nl.

(** [k] groups of one exception each around [inner]: with [inner] a
    group, a nesting of [k + 1] levels. *)
Fixpoint nested (k : nat) (inner : TracebackException string) : TracebackException string :=
  match k with
  | O => inner
  | S k' => group "ExceptionGroup: level (1 sub-exception)" [nested k' inner]
  end.

(** The two texts a level of [nested] yields before its exception: its
    own line and the header of its only slot, at depth [j + 1]. *)
Definition level_lines (j : nat) : list string :=
  [Py.str_mul " " (2 * (Z.of_nat j + 1)) ++ "| ExceptionGroup: level (1 sub-exception)" ++ nl;
   Py.str_mul " " (2 * (Z.of_nat j + 1)) ++ "+-+---------------- 1 ----------------" ++ nl].

(** ** The excepthook and the plain traceback *)

(** The texts of an exception that is no group, as the standard library
    prints them: the header and the frames when there is a stack, then
    the exception-only texts. *)
Definition plain_traceback {FrameSummary : Type}
    (StackSummary_format : list FrameSummary -> list string)
    (exc : TracebackException FrameSummary) : list string :=
  List.app
    (if Nat.eqb (List.length (stack exc)) 0 then []
     else ("Traceback (most recent call last):" ++ nl) :: StackSummary_format (stack exc))
    (format_exception_only exc).

(** [exceptiongroup_excepthook]: [traceback.format_exception] builds the
    [TracebackException] of the exception ([exc] here) and lists its
    [format(chain=True)]; the joined text is written to [sys.stderr],
    held as the text written so far. *)
Definition exceptiongroup_excepthook {FrameSummary : Type}
    (StackSummary_format : list FrameSummary -> list string)
    (max_group_width max_group_depth : Z)
    (exc : TracebackException FrameSummary) (stderr : string) : string :=
  stderr ++ Py.join (lines_of (traceback_exception_format StackSummary_format
                                 max_group_width max_group_depth (rank exc) exc true None)).

(** ** What a call leaves of the context

    [ctx_inv seen_ids b d ctx]: the depth is [d], the [seen] set is
    [seen_ids], and, when [b] is set, no closing frame is owed. *)
Definition ctx_inv (seen_ids : list Z) (b : bool) (d : Z) (ctx : _ExceptionPrintContext) : Prop :=
  exception_group_depth ctx = d
  /\ seen ctx = seen_ids
  /\ (b = true -> need_close ctx = false).

(** The depths at which a call entered at depth [d] may yield, with the
    depth limit [max_group_depth]. *)
Definition depth_within (max_group_depth d : Z) (y : Yielded) : Prop :=
  d <= at_depth y <= Z.max d (Z.max max_group_depth 1 + 1).

(** What the invariant proofs ask of the recursive call on a child. *)
Definition child_invariant {FrameSummary : Type}
    (R : Z -> Yielded -> Prop) (seen_ids : list Z)
    (format_rec : TracebackException FrameSummary -> bool -> Gen unit)
    (chain : bool) (child : TracebackException FrameSummary) : Prop :=
  forall d,
    triple (ctx_inv seen_ids false d) (format_rec child chain)
           (ctx_inv seen_ids false d) (R d).

(** ** The tree without its links *)

(** [exc] with every [__cause__] and [__context__] taken away, in the
    exception and in all its sub-exceptions. *)
Fixpoint unchain {FrameSummary : Type} (exc : TracebackException FrameSummary)
  : TracebackException FrameSummary :=
  match exc with
  | mkTracebackException _ _ suppress excs stk only =>
      mkTracebackException None None suppress
        (match excs with
         | Some l => Some (map unchain l)
         | None => None
         end)
        stk only
  end.

(** Two generators that do the same from every context. *)
Definition gen_eq {A : Type} (m m' : Gen A) : Prop := forall ctx, m ctx = m' ctx.

(** ** [traceback_exception_init]

    The exception being captured: its [id], and, when it is a
    [BaseExceptionGroup], its [message] and its [exceptions]. *)

Unset Elimination Schemes.
Inductive BaseException : Type :=
  mkBaseException {
    py_id : Z;
    as_group : option (string * list BaseException)
  }.
Set Elimination Schemes.

(** What the function assigns on [self], and the caller's [_seen] set
    after the call ([None] when the caller passed none). *)
Record init_result (T : Type) : Type := mkInitResult {
  self_exceptions : option (list T);
  self_msg : option string;
  caller_seen : option (list Z)
}.

Arguments mkInitResult {T}.
Arguments self_exceptions {T}.
Arguments self_msg {T}.
Arguments caller_seen {T}.

Section Init.

(** The [TracebackException] objects that [from_exception] returns. *)
Variable T : Type.

(** The standard library's part: the [_seen] set as the original
    [__init__] leaves it when it was given one, and
    [TracebackException.from_exception] with its [_seen] argument. *)
Variable original_init_seen : BaseException -> list Z -> list Z.
Variable from_exception : BaseException -> option (list Z) -> T.

(** [id(exc) not in _seen]. *)
Definition not_in_seen (exc : BaseException) (_seen : list Z) : bool :=
  negb (existsb (Z.eqb (py_id exc)) _seen).

(** The loop [for exc in exc_value.exceptions], with [embedded] as it
    grows; every call gets its own copy [set(_seen)]. *)
Fixpoint embed (seen_was_none : bool) (_seen : list Z)
    (exceptions : list BaseException) (embedded : list T) : list T :=
  match exceptions with
  | [] => embedded
  | exc :: rest =>
      embed seen_was_none _seen rest
            (if not_in_seen exc _seen
             then (embedded ++ [from_exception exc (if seen_was_none then None else Some _seen)])%list
             else embedded)
  end.

Definition traceback_exception_init (exc_value : BaseException) (_seen : option (list Z))
  : init_result T :=
  let after_original := option_map (original_init_seen exc_value) _seen in
  let seen_was_none := match _seen with None => true | Some _ => false end in
  let _seen := match after_original with None => [] | Some s => s end in
  match as_group exc_value with
  | Some (message, exceptions) =>
      mkInitResult (Some (embed seen_was_none _seen exceptions [])) (Some message)
                   after_original
  | None => mkInitResult None None after_original
  end.

End Init.

(** A group with ids 1, 2, 1 (the same sub-exception twice) and 3. *)
Definition sample_group_value : BaseException :=
  mkBaseException 9
    (Some ("eg", [mkBaseException 1 None; mkBaseException 2 None;
                  mkBaseException 1 None; mkBaseException 3 None])).

(** Stand-ins for the standard library in examples: the original
    [__init__] adds the [id] of its exception to [_seen], and
    [from_exception] is recorded by its arguments. *)
Definition sample_original_init_seen (exc : BaseException) (_seen : list Z) : list Z :=
  py_id exc :: _seen.

Definition sample_from_exception (exc : BaseException) (_seen : option (list Z))
  : Z * option (list Z) :=
  (py_id exc, _seen).

(** ** A group of leaves, rendered from a fresh context *)

(** The texts of the group itself, yielded at depth 1. *)
Definition toplevel_group_head {FrameSummary : Type}
    (StackSummary_format : list FrameSummary -> list string)
    (exc : TracebackException FrameSummary) : list Yielded :=
  List.app
    (if Nat.eqb (List.length (stack exc)) 0 then []
     else List.app
            (emit_out (mkCtx [] 1 false)
               (Str ("Exception Group Traceback (most recent call last):" ++ nl)) (Some "+"))
            (emit_out (mkCtx [] 1 false) (Texts (StackSummary_format (stack exc))) None))
    (emit_out (mkCtx [] 1 false) (Texts (format_exception_only exc)) None).

(** The slots of the leaves [children], numbered from [start + 1], of a
    group at depth [d]: for each its header and its block. *)
Definition flat_slots_out {FrameSummary : Type}
    (StackSummary_format : list FrameSummary -> list string)
    (d : Z) (start : nat) (children : list (TracebackException FrameSummary))
  : list Yielded :=
  flat_map
    (fun numbered : nat * TracebackException FrameSummary =>
       mkYielded d (slot_header (mkCtx [] d false) (Z.of_nat (fst numbered))
                                (Py.str_of_int (Z.of_nat (fst numbered) + 1)))
       :: leaf_chain_out StackSummary_format (mkCtx [] (d + 1) false) (snd numbered))
    (combine (seq start (List.length children)) children).

(** The texts of a group rendered below the top level, from [ctx]: its
    header and stack when it has one, and its exception-only texts. *)
Definition nested_group_head {FrameSummary : Type}
    (StackSummary_format : list FrameSummary -> list string)
    (ctx : _ExceptionPrintContext) (exc : TracebackException FrameSummary) : list Yielded :=
  List.app
    (if Nat.eqb (List.length (stack exc)) 0 then []
     else List.app
            (emit_out ctx (Str ("Exception Group Traceback (most recent call last):" ++ nl))
                      None)
            (emit_out ctx (Texts (StackSummary_format (stack exc))) None))
    (emit_out ctx (Texts (format_exception_only exc)) None).

(** ** The run of a group, slot by slot *)

(** What the description of a group's run asks of the recursive call on
    a child: it returns, leaves [seen] and the depth as they were, and
    leaves the whole context alone when no closing frame was owed. *)
Definition child_runs_ok {FrameSummary : Type}
    (format_rec : TracebackException FrameSummary -> bool -> Gen unit)
    (chain : bool) (child : TracebackException FrameSummary) : Prop :=
  forall c, exists c' out,
    runs (format_rec child chain) c c' out
    /\ seen c' = seen c
    /\ exception_group_depth c' = exception_group_depth c
    /\ (need_close c = false -> c' = c).

(** Whether a finished run left [need_close] set. *)
Definition need_close_of (r : outcome unit) : bool :=
  match r with
  | Returned _ c _ => need_close c
  | _ => false
  end.

Section GroupOut.

Context {FrameSummary : Type}.
Variable StackSummary_format : list FrameSummary -> list string.
Variable max_group_width : Z.
Variable format_rec : TracebackException FrameSummary -> bool -> Gen unit.
Variable chain : bool.

(** The [seen] set of the context and the depth [d] at which the group
    draws its slot headers. *)
Variable sn : list Z.
Variable d : Z.

(** The slot of index [i] (title [i + 1]) that renders [child]: its
    header at depth [d], everything the recursive call on [child] yields
    from depth [d + 1], and, when the slot is the last one and the call
    left [need_close] set, the closing frame. *)
Definition slot_out (i : nat) (child : TracebackException FrameSummary) (last : bool)
  : list Yielded :=
  let c_in := mkCtx sn (d + 1) last in
  mkYielded d (slot_header (mkCtx sn d false) (Z.of_nat i) (Py.str_of_int (Z.of_nat i + 1)))
  :: List.app
       (yields_of (format_rec child chain c_in))
       (if last && need_close_of (format_rec child chain c_in)
        then [mkYielded (d + 1) (closing_frame c_in)]
        else []).

(** The slots of [children], in order, with the indices [start],
    [start + 1], ...; with [closes] set the last of them is the last
    slot of the group. *)
Fixpoint numbered_slots_out (start : nat) (children : list (TracebackException FrameSummary))
    (closes : bool) : list Yielded :=
  match children with
  | [] => []
  | child :: rest =>
      List.app
        (slot_out start child (closes && match rest with [] => true | _ => false end))
        (numbered_slots_out (S start) rest closes)
  end.

(** The slot that stands for the [remaining] exceptions left out: its
    header titled ["..."], the one emitted line, the closing frame. *)
Definition truncated_slot_out (remaining : Z) : list Yielded :=
  [mkYielded d (slot_header (mkCtx sn d false) max_group_width "...");
   mkYielded (d + 1)
             (Py.textwrap_indent (more_exceptions_line remaining)
                                 (emit_prefix (mkCtx sn (d + 1) true) None));
   mkYielded (d + 1) (closing_frame (mkCtx sn (d + 1) true))].

(** All the slots of a group whose exceptions are [excs]: one numbered
    slot for each when they are no more than [max_group_width]; else the
    numbered slots of the first [max_group_width] and then the truncated
    slot (no slot at all when [max_group_width + 1] is not positive). *)
Definition group_slots_out (excs : list (TracebackException FrameSummary)) : list Yielded :=
  let m := Z.of_nat (List.length excs) in
  if m <=? max_group_width then numbered_slots_out 0 excs true
  else if max_group_width <? 0 then []
  else List.app
         (numbered_slots_out 0 (firstn (Z.to_nat max_group_width) excs) false)
         (truncated_slot_out (m - max_group_width)).

(** The texts of the group itself, emitted from [ctx1]: the header (with
    the margin ["+"] at the top level) and the stack when there is one,
    then the exception-only texts. *)
Definition group_head_out (top : bool) (ctx1 : _ExceptionPrintContext)
    (exc : TracebackException FrameSummary) : list Yielded :=
  List.app
    (if Nat.eqb (List.length (stack exc)) 0 then []
     else List.app
            (emit_out ctx1 (Str ("Exception Group Traceback (most recent call last):" ++ nl))
                      (if top then Some "+" else None))
            (emit_out ctx1 (Texts (StackSummary_format (stack exc))) None))
    (emit_out ctx1 (Texts (format_exception_only exc)) None).

End GroupOut.

(** Everything a group within the depth limit yields from [ctx]: its own
    texts and its slots, one level down when [ctx] is at depth 0. *)
Definition group_out {FrameSummary : Type}
    (StackSummary_format : list FrameSummary -> list string) (max_group_width : Z)
    (format_rec : TracebackException FrameSummary -> bool -> Gen unit) (chain : bool)
    (ctx : _ExceptionPrintContext)
    (exc : TracebackException FrameSummary) (excs : list (TracebackException FrameSummary))
  : list Yielded :=
  let top := exception_group_depth ctx =? 0 in
  let ctx1 := if top then set_depth 1 ctx else ctx in
  List.app
    (group_head_out StackSummary_format top ctx1 exc)
    (group_slots_out max_group_width format_rec chain (seen ctx) (exception_group_depth ctx1)
                     excs).

(** ** Leaves whose cause is a group *)

(** [raise ValueError("bad") from eg], with [eg] a group of one
    exception: no group itself, but its chain holds one. *)
Definition group_caused_leaf : TracebackException string :=
  mkTracebackException
    (Some (group "ExceptionGroup: inner (1 sub-exception)" [leaf "KeyError: 'k'"]))
    None false None [] ["ValueError: bad" ++ nl].

(** A group of two leaves that was itself raised from a group. *)
Definition group_caused_group : TracebackException string :=
  mkTracebackException
    (Some (group "ExceptionGroup: inner (1 sub-exception)" [leaf "KeyError: 'k'"]))
    None false (Some [leaf "ValueError: 1"; leaf "TypeError: 2"]) []
    ["ExceptionGroup: outer (2 sub-exceptions)" ++ nl].

(** * Properties *)

(** ** Lines and prefixes *)

Module PyFacts.
Import Py.

Lemma is_linebreak_CR : is_linebreak CR = true.
Proof. reflexivity. Qed.

Lemma eqb_CR_nobreak c : is_linebreak c = false -> Ascii.eqb c CR = false.
Proof.
  intros H. destruct (Ascii.eqb_spec c CR) as [->|]; [discriminate H | reflexivity].
Qed.

(** The equations of [splitlines], one per kind of first character. *)
Lemma splitlines_plain c rest :
  is_linebreak c = false ->
  splitlines (String c rest) =
  match splitlines rest with
  | [] => [String c ""]
  | line :: lines => String c line :: lines
  end.
Proof.
  intros H. simpl. rewrite (eqb_CR_nobreak c H), H. reflexivity.
Qed.

Lemma splitlines_break c rest :
  is_linebreak c = true -> Ascii.eqb c CR = false ->
  splitlines (String c rest) = String c "" :: splitlines rest.
Proof. intros H1 H2. simpl. rewrite H2, H1. reflexivity. Qed.

Lemma splitlines_CRLF rest :
  splitlines (String CR (String LF rest)) = String CR (String LF "") :: splitlines rest.
Proof. reflexivity. Qed.

Lemma splitlines_CR rest :
  starts_with_LF rest = false ->
  splitlines (String CR rest) = String CR "" :: splitlines rest.
Proof.
  intros H. destruct rest as [|c rest]; [reflexivity|].
  simpl in H. cbn [splitlines]. rewrite Ascii.eqb_refl, H. reflexivity.
Qed.

(** Induction along the way [splitlines] consumes its argument. *)
Lemma splitlines_rect (P : string -> Prop) :
  P "" ->
  (forall rest, P rest -> P (String CR (String LF rest))) ->
  (forall rest, starts_with_LF rest = false -> P rest -> P (String CR rest)) ->
  (forall c rest, is_linebreak c = true -> Ascii.eqb c CR = false ->
                  P rest -> P (String c rest)) ->
  (forall c rest, is_linebreak c = false -> P rest -> P (String c rest)) ->
  forall t, P t.
Proof.
  intros Hnil Hcrlf Hcr Hbrk Hplain t.
  assert (H : forall n t, (String.length t <= n)%nat -> P t).
  { induction n as [|n IH]; intros [|c rest] Hlen; simpl in Hlen; try exact Hnil; try lia.
    destruct (is_linebreak c) eqn:Hc.
    - destruct (Ascii.eqb c CR) eqn:Hcr'.
      + apply Ascii.eqb_eq in Hcr'. subst c.
        destruct (starts_with_LF rest) eqn:Hlf.
        * destruct rest as [|c' rest']; [discriminate Hlf|].
          simpl in Hlf. apply Ascii.eqb_eq in Hlf. subst c'.
          apply Hcrlf, IH. simpl in Hlen. lia.
        * apply Hcr; [exact Hlf | apply IH; lia].
      + apply Hbrk; [exact Hc | exact Hcr' | apply IH; lia].
    - apply Hplain; [exact Hc | apply IH; lia]. }
  apply (H (String.length t)). lia.
Qed.

Lemma splitlines_nil t : splitlines t = [] -> t = "".
Proof.
  destruct t as [|c rest]; [reflexivity|]. simpl.
  destruct (Ascii.eqb c CR).
  - destruct rest as [|c' rest']; [discriminate|]. destruct (Ascii.eqb c' LF); discriminate.
  - destruct (is_linebreak c); [discriminate|]. destruct (splitlines rest); discriminate.
Qed.

(** Every line of [splitlines] has at least one character. *)
Lemma splitlines_lines_nonempty t : Forall (fun line => line <> "") (splitlines t).
Proof.
  induction t as [| rest IH | rest Hlf IH | c rest Hc Hcr IH | c rest Hc IH]
    using splitlines_rect.
  - constructor.
  - rewrite splitlines_CRLF. constructor; [discriminate | exact IH].
  - rewrite splitlines_CR by exact Hlf. constructor; [discriminate | exact IH].
  - rewrite splitlines_break by assumption. constructor; [discriminate | exact IH].
  - rewrite splitlines_plain by exact Hc.
    destruct (splitlines rest) as [|line lines].
    + constructor; [discriminate | constructor].
    + inversion IH; subst. constructor; [discriminate | assumption].
Qed.

(** The lines of a text, put together again, are the text. *)
Lemma join_splitlines t : join (splitlines t) = t.
Proof.
  induction t as [| rest IH | rest Hlf IH | c rest Hc Hcr IH | c rest Hc IH]
    using splitlines_rect.
  - reflexivity.
  - rewrite splitlines_CRLF. simpl. rewrite IH. reflexivity.
  - rewrite splitlines_CR by exact Hlf. simpl. rewrite IH. reflexivity.
  - rewrite splitlines_break by assumption. simpl. rewrite IH. reflexivity.
  - rewrite splitlines_plain by exact Hc.
    destruct (splitlines rest) as [|line lines]; simpl in *.
    + rewrite <- IH. reflexivity.
    + rewrite IH. reflexivity.
Qed.

Lemma app_assoc_s (a b c : string) : (a ++ b) ++ c = a ++ (b ++ c).
Proof. induction a as [|x a IH]; simpl; [reflexivity | rewrite IH; reflexivity]. Qed.

Lemma app_nil_r_s (a : string) : a ++ "" = a.
Proof. induction a as [|x a IH]; simpl; [reflexivity | rewrite IH; reflexivity]. Qed.

Lemma app_inv_head_s (p a b : string) : p ++ a = p ++ b -> a = b.
Proof.
  induction p as [|x p IH]; simpl; intros H; [exact H|].
  injection H as H. exact (IH H).
Qed.

(** A prefix without line boundaries joins the first line. *)
Lemma splitlines_app_nobreak p y :
  no_linebreak p = true ->
  splitlines (p ++ y) =
  match splitlines y with
  | [] => match p with EmptyString => [] | _ => [p] end
  | line :: lines => (p ++ line) :: lines
  end.
Proof.
  induction p as [|c p IH]; intros Hp.
  - simpl. destruct (splitlines y); reflexivity.
  - simpl in Hp. apply andb_prop in Hp as [Hc Hp].
    apply negb_true_iff in Hc.
    change (String c p ++ y) with (String c (p ++ y)).
    rewrite (splitlines_plain c _ Hc), (IH Hp).
    destruct (splitlines y) as [|line lines]; [|reflexivity].
    destruct p; reflexivity.
Qed.

Lemma splitlines_head_char c rest :
  exists line lines, splitlines (String c rest) = String c line :: lines.
Proof.
  simpl. destruct (Ascii.eqb c CR).
  - destruct rest as [|c' rest']; [eauto|]. destruct (Ascii.eqb c' LF); eauto.
  - destruct (is_linebreak c); [eauto|]. destruct (splitlines rest); eauto.
Qed.

Lemma no_linebreak_not_LF c p :
  no_linebreak (String c p) = true -> Ascii.eqb c LF = false.
Proof.
  simpl. intros H. apply andb_prop in H as [H _]. apply negb_true_iff in H.
  destruct (Ascii.eqb_spec c LF) as [->|]; [discriminate H | reflexivity].
Qed.

(** Prefixing the lines of a text does not bring an LF to its front. *)
Lemma indent_starts_with_LF p t :
  no_linebreak p = true ->
  starts_with_LF t = false ->
  starts_with_LF (textwrap_indent t p) = false.
Proof.
  intros Hp Ht. unfold textwrap_indent.
  destruct t as [|c rest]; [reflexivity|].
  destruct (splitlines_head_char c rest) as (line & lines & ->).
  simpl in *. destruct p as [|x p]; simpl; [exact Ht|].
  exact (no_linebreak_not_LF x p Hp).
Qed.

(** The lines of an indented text are the lines of the text, each behind
    the prefix: none is skipped and none is merged with its neighbour. *)
Lemma splitlines_textwrap_indent p t :
  no_linebreak p = true ->
  splitlines (textwrap_indent t p) = map (fun line => p ++ line) (splitlines t).
Proof.
  intros Hp.
  induction t as [| rest IH | rest Hlf IH | c rest Hc Hcr IH | c rest Hc IH]
    using splitlines_rect.
  - reflexivity.
  - unfold textwrap_indent in *. rewrite splitlines_CRLF. cbn [map join].
    rewrite app_assoc_s, (splitlines_app_nobreak p _ Hp).
    change (String CR (String LF "") ++ ?x) with (String CR (String LF x)).
    rewrite splitlines_CRLF, IH. reflexivity.
  - pose proof (indent_starts_with_LF p rest Hp Hlf) as Hlf'.
    unfold textwrap_indent in *. rewrite splitlines_CR by exact Hlf. cbn [map join].
    rewrite app_assoc_s, (splitlines_app_nobreak p _ Hp).
    change (String CR "" ++ ?x) with (String CR x).
    rewrite splitlines_CR by exact Hlf'. rewrite IH. reflexivity.
  - unfold textwrap_indent in *. rewrite splitlines_break by assumption. cbn [map join].
    rewrite app_assoc_s, (splitlines_app_nobreak p _ Hp).
    change (String c "" ++ ?x) with (String c x).
    rewrite splitlines_break by assumption. rewrite IH. reflexivity.
  - pose proof (splitlines_lines_nonempty rest) as Hne.
    unfold textwrap_indent in *. rewrite splitlines_plain by exact Hc.
    destruct (splitlines rest) as [|line lines].
    + cbn [map join]. rewrite app_nil_r_s.
      rewrite (splitlines_app_nobreak p _ Hp), (splitlines_plain c "" Hc). reflexivity.
    + cbn [map join] in *. rewrite app_assoc_s in IH. rewrite app_assoc_s.
      rewrite (splitlines_app_nobreak p _ Hp) in IH.
      rewrite (splitlines_app_nobreak p _ Hp).
      change (String c line ++ ?x) with (String c (line ++ x)).
      rewrite (splitlines_plain c _ Hc).
      destruct (splitlines (line ++ join (map (fun l => p ++ l) lines))) as [|l' ls'].
      * exfalso. inversion Hne as [|? ? Hline _]; subst. apply Hline.
        destruct p as [|x p]; [discriminate IH|].
        injection IH as IH. apply (app_inv_head_s p). rewrite app_nil_r_s. symmetry. exact IH.
      * injection IH as IH1 IH2. apply app_inv_head_s in IH1. subst. reflexivity.
Qed.

End PyFacts.

(** ** Reasoning about generators *)

Section Triples.

Variable R : Yielded -> Prop.

Local Abbreviation Ctx := _ExceptionPrintContext.

Lemma triple_conseq (P P' Q Q' : Ctx -> Prop) m :
  (forall c, P' c -> P c) -> (forall c, Q c -> Q' c) ->
  triple P m Q R -> triple P' m Q' R.
Proof.
  intros HP HQ H ctx Hctx.
  destruct (H ctx (HP _ Hctx)) as (ctx' & out & E & Hq & Hr). eauto 6.
Qed.

Lemma triple_post (P Q Q' : Ctx -> Prop) m :
  triple P m Q R -> (forall c, Q c -> Q' c) -> triple P m Q' R.
Proof. intros H HQ. apply (triple_conseq P P Q Q'); auto. Qed.

Lemma triple_pre (P P' Q : Ctx -> Prop) m :
  triple P m Q R -> (forall c, P' c -> P c) -> triple P' m Q R.
Proof. intros H HP. apply (triple_conseq P P' Q Q); auto. Qed.

Lemma triple_ret (P : Ctx -> Prop) : triple P (ret tt) P R.
Proof. intros ctx H. exists ctx, []. repeat split; auto. Qed.

Lemma triple_bind (P Q Q' : Ctx -> Prop) (m k : Gen unit) :
  triple P m Q R -> triple Q k Q' R -> triple P (m ;; k) Q' R.
Proof.
  intros Hm Hk ctx Hctx. unfold bind.
  destruct (Hm ctx Hctx) as (ctx1 & out1 & -> & Hq & Hr1).
  destruct (Hk ctx1 Hq) as (ctx2 & out2 & -> & Hq' & Hr2).
  exists ctx2, (out1 ++ out2)%list. repeat split; auto using Forall_app.
  apply Forall_app; auto.
Qed.

Lemma triple_get (P Q : Ctx -> Prop) (k : Ctx -> Gen unit) :
  (forall c, P c -> triple (fun x => x = c) (k c) Q R) ->
  triple P (c <- get_ctx ;; k c) Q R.
Proof.
  intros Hk ctx Hctx. unfold bind, get_ctx.
  destruct (Hk ctx Hctx ctx eq_refl) as (ctx2 & out2 & -> & Hq & Hr).
  exists ctx2, out2. repeat split; auto.
Qed.

Lemma triple_modify (P Q : Ctx -> Prop) f :
  (forall c, P c -> Q (f c)) -> triple P (modify_ctx f) Q R.
Proof. intros H ctx Hctx. exists (f ctx), []. repeat split; auto. Qed.

Lemma triple_yield (P : Ctx -> Prop) s :
  (forall c, P c -> R (mkYielded (exception_group_depth c) s)) ->
  triple P (yield s) P R.
Proof.
  intros H ctx Hctx. exists ctx, [mkYielded (exception_group_depth ctx) s].
  repeat split; auto.
Qed.

Lemma triple_when (P Q : Ctx -> Prop) (b : bool) m :
  (b = true -> triple P m Q R) -> (b = false -> forall c, P c -> Q c) ->
  triple P (when b m) Q R.
Proof.
  intros Ht Hf. destruct b; simpl.
  - auto.
  - apply (triple_conseq P P P Q); [auto | apply Hf; reflexivity | apply triple_ret].
Qed.

Lemma triple_for_each {A : Type} (I : Ctx -> Prop) (l : list A) body :
  (forall x, In x l -> triple I (body x) I R) ->
  triple I (for_each l body) I R.
Proof.
  induction l as [|x l IH]; intros H; simpl.
  - apply triple_ret.
  - eapply triple_bind; [apply H; left; reflexivity | apply IH; intros; apply H; right; assumption].
Qed.

End Triples.

(** ** More fuel changes nothing *)

Lemma refines_refl {A : Type} (m : Gen A) : refines m m.
Proof. intros ctx _. reflexivity. Qed.

Lemma refines_bind {A B : Type} (m m' : Gen A) (k k' : A -> Gen B) :
  refines m m' -> (forall a, refines (k a) (k' a)) ->
  refines (bind m k) (bind m' k').
Proof.
  intros Hm Hk ctx H. unfold bind in *.
  destruct (m ctx) as [a ctx1 out1|e ctx1 out1|] eqn:E; [| |congruence].
  - rewrite (Hm ctx) by congruence. rewrite E.
    destruct (k a ctx1) as [b ctx2 out2|e ctx2 out2|] eqn:E'; [| |congruence].
    + rewrite (Hk a ctx1) by congruence. rewrite E'. reflexivity.
    + rewrite (Hk a ctx1) by congruence. rewrite E'. reflexivity.
  - rewrite (Hm ctx) by congruence. rewrite E. reflexivity.
Qed.

Lemma refines_for_each {A : Type} (l : list A) (body body' : A -> Gen unit) :
  (forall x, refines (body x) (body' x)) ->
  refines (for_each l body) (for_each l body').
Proof.
  intros H. induction l as [|x l IH]; simpl.
  - apply refines_refl.
  - apply refines_bind; auto.
Qed.

Lemma refines_when (b : bool) (m m' : Gen unit) :
  refines m m' -> refines (when b m) (when b m').
Proof. destruct b; simpl; auto using refines_refl. Qed.

(** ** The print context *)

Lemma prefix_app (p s : string) : String.prefix p (p ++ s) = true.
Proof.
  induction p as [|c p IH]; simpl; [destruct s; reflexivity|].
  destruct (Ascii.ascii_dec c c); [exact IH | congruence].
Qed.

Lemma no_linebreak_app (a b : string) :
  Py.no_linebreak a = true -> Py.no_linebreak b = true -> Py.no_linebreak (a ++ b) = true.
Proof.
  induction a as [|c a IH]; simpl; intros Ha Hb; [exact Hb|].
  apply andb_prop in Ha as [Hc Ha]. rewrite Hc. simpl. auto.
Qed.

Lemma no_linebreak_spaces (n : Z) : Py.no_linebreak (Py.str_mul " " n) = true.
Proof.
  unfold Py.str_mul. induction (Z.to_nat n) as [|k IH]; simpl; [reflexivity | exact IH].
Qed.

(** Every line of a text indented by [p] begins with [p]. *)
Lemma indented_lines_prefixed (p t : string) :
  Py.no_linebreak p = true ->
  Forall (fun line => String.prefix p line = true) (Py.splitlines (Py.textwrap_indent t p)).
Proof.
  intros Hp. rewrite (PyFacts.splitlines_textwrap_indent p t Hp).
  apply Forall_forall. intros line Hin. apply in_map_iff in Hin as (l & <- & _).
  apply prefix_app.
Qed.

Lemma framed_default_margin (c : _ExceptionPrintContext) (s : string) :
  framed (mkYielded (exception_group_depth c)
            (Py.textwrap_indent s
               (if exception_group_depth c =? 0 then indent c
                else indent c ++ "|" ++ " "))).
Proof.
  intros Hd. simpl in *. apply margin_lines.
  destruct (Z.eqb_spec (exception_group_depth c) 0) as [E|_]; [lia|].
  apply indented_lines_prefixed, no_linebreak_app;
    [apply no_linebreak_spaces | reflexivity].
Qed.

(** [emit] with the default margin leaves the context alone and yields
    framed texts only. *)
Lemma emit_default_triple (P : _ExceptionPrintContext -> Prop) (tg : text_gen) :
  triple P (emit tg None) P framed.
Proof.
  unfold emit. apply triple_get. intros c Hc.
  apply (triple_post framed (fun x => x = c) (fun x => x = c));
    [| intros ? ->; exact Hc].
  destruct tg as [s|l].
  - apply triple_yield. intros ? ->. apply framed_default_margin.
  - apply triple_for_each. intros s _.
    apply triple_yield. intros ? ->. apply framed_default_margin.
Qed.

Lemma emit_toplevel_header_triple :
  triple (fun c => exception_group_depth c = 1)
         (emit (Str ("Exception Group Traceback (most recent call last):" ++ nl)) (Some "+"))
         (fun c => exception_group_depth c = 1) framed.
Proof.
  unfold emit. apply triple_get. intros c Hc.
  apply (triple_post framed (fun x => x = c) (fun x => x = c));
    [| intros ? ->; exact Hc].
  apply triple_yield. intros ? -> _. simpl. apply toplevel_header; [exact Hc|].
  unfold indent. rewrite Hc. reflexivity.
Qed.

(** ** The formatter returns, restores the depth and frames its output *)

Section FormatFacts.

Context {FrameSummary : Type}.
Variable StackSummary_format : list FrameSummary -> list string.
Variable max_group_width : Z.
Variable max_group_depth : Z.

Local Abbreviation TE := (TracebackException FrameSummary).
Local Abbreviation depth_is d := (fun c : _ExceptionPrintContext => exception_group_depth c = d).

Lemma range_bounds (n i : Z) : In i (Py.range n) -> 0 <= i < n.
Proof.
  unfold Py.range. intros H. apply in_map_iff in H as (k & <- & Hk).
  apply in_seq in Hk. lia.
Qed.

Lemma getitem_in_range {A : Type} (l : list A) (i : Z) :
  0 <= i < Z.of_nat (List.length l) ->
  exists x, Py.getitem l i = Some x /\ In x l.
Proof.
  intros H. unfold Py.getitem.
  destruct (Z.ltb_spec i 0) as [|_]; [lia|].
  destruct (nth_error l (Z.to_nat i)) as [x|] eqn:E.
  - exists x. split; [reflexivity | eapply nth_error_In; eassumption].
  - apply nth_error_None in E. lia.
Qed.

Lemma slot_triple format_rec (excs : list TE) chain (num_excs n i d : Z) :
  (i < max_group_width ->
   exists child, Py.getitem excs i = Some child /\ child_ok format_rec chain child) ->
  triple (depth_is d)
         (slot max_group_width format_rec excs chain num_excs n i)
         (depth_is d) framed.
Proof.
  intros Hchild. unfold slot.
  apply (triple_bind framed _ (depth_is d)).
  { apply triple_when; [|auto]. intros _. apply triple_modify. auto. }
  apply triple_get. intros c Hc.
  apply (triple_bind framed _ (fun x => x = c)).
  { apply triple_yield. intros ? -> _. simpl. eapply slot_line. reflexivity. }
  apply (triple_bind framed _ (depth_is (d + 1))).
  { unfold incr_depth. apply triple_modify. intros ? ->. simpl. lia. }
  apply (triple_bind framed _ (depth_is (d + 1))).
  { destruct (Z.geb_spec i max_group_width) as [Hge|Hlt]; simpl.
    - apply emit_default_triple.
    - destruct (Hchild Hlt) as (child & -> & Hok). apply Hok. }
  apply triple_get. intros c' Hc'.
  apply (triple_bind framed _ (depth_is (d + 1))).
  { apply triple_when; [|intros _ ? ->; exact Hc']. intros _.
    apply (triple_bind framed _ (fun x => x = c')).
    - apply triple_yield. intros ? -> _. simpl. apply close_line. reflexivity.
    - apply triple_modify. intros ? ->. exact Hc'. }
  unfold decr_depth. apply triple_modify. intros ? H. simpl in *. lia.
Qed.

Lemma stack_part_triple (P : _ExceptionPrintContext -> Prop) (b : bool) hdr frames :
  triple P (when b (emit (Str hdr) None ;; emit (Texts frames) None)) P framed.
Proof.
  apply triple_when; [|auto]. intros _.
  apply (triple_bind framed _ P); apply emit_default_triple.
Qed.

Lemma format_group_triple format_rec (exc : TE) (excs : list TE) chain (d : Z) :
  (forall child, In child excs -> child_ok format_rec chain child) ->
  triple (depth_is d)
         (format_group StackSummary_format max_group_width format_rec exc excs chain)
         (depth_is d) framed.
Proof.
  intros Hkids. unfold format_group.
  apply triple_get. intros c Hc.
  set (top := exception_group_depth c =? 0).
  set (d1 := if top then 1 else d).
  assert (Htop : top = true -> d = 0 /\ d1 = 1).
  { unfold d1, top. destruct (Z.eqb_spec (exception_group_depth c) 0); [lia | discriminate]. }
  assert (Hnot : top = false -> d1 = d).
  { unfold d1. intros ->. reflexivity. }
  apply (triple_bind framed _ (depth_is d1)).
  { apply triple_when.
    - intros E. destruct (Htop E) as [? ->]. unfold incr_depth.
      apply triple_modify. intros ? ->. simpl. lia.
    - intros E ? ->. rewrite (Hnot E). exact Hc. }
  apply (triple_bind framed _ (depth_is d1)).
  { apply triple_when; [|auto]. intros _.
    apply (triple_bind framed _ (depth_is d1)); [|apply emit_default_triple].
    destruct top eqn:E.
    - destruct (Htop eq_refl) as [_ ->]. apply emit_toplevel_header_triple.
    - apply emit_default_triple. }
  apply (triple_bind framed _ (depth_is d1)); [apply emit_default_triple|].
  apply (triple_bind framed _ (depth_is d1)); [apply triple_modify; auto|].
  apply (triple_bind framed _ (depth_is d1)).
  { apply triple_for_each. intros i Hi. apply range_bounds in Hi.
    apply slot_triple. intros Hlt.
    destruct (getitem_in_range excs i) as (child & E & Hin).
    - unfold n_slots in Hi.
      destruct (Z.leb_spec (Z.of_nat (List.length excs)) max_group_width); lia.
    - exists child. split; [exact E | apply Hkids; exact Hin]. }
  apply triple_when.
  - intros E. destruct (Htop E) as [-> ->].
    apply triple_get. intros c' Hc'. rewrite Hc'. simpl.
    apply triple_modify. reflexivity.
  - intros E ? H. rewrite <- (Hnot E). exact H.
Qed.

Lemma block_triple format_rec chain (msg : option string) (exc : TE) (d : Z) :
  (forall excs child, exceptions exc = Some excs -> In child excs ->
                      child_ok format_rec chain child) ->
  triple (depth_is d)
         (block StackSummary_format max_group_width max_group_depth format_rec chain (msg, exc))
         (depth_is d) framed.
Proof.
  intros Hkids. unfold block.
  apply (triple_bind framed _ (depth_is d)).
  { destruct msg; [apply emit_default_triple | apply triple_ret]. }
  destruct (exceptions exc) as [excs|] eqn:E.
  - apply triple_get. intros c Hc.
    apply (triple_pre framed (depth_is d)); [|intros ? ->; exact Hc].
    destruct (exception_group_depth c >? max_group_depth).
    + apply emit_default_triple.
    + apply format_group_triple. intros child Hin. exact (Hkids excs child eq_refl Hin).
  - apply (triple_bind framed _ (depth_is d));
      [apply stack_part_triple | apply emit_default_triple].
Qed.

Lemma rank_child (exc child : TE) (excs : list TE) :
  exceptions exc = Some excs -> In child excs -> (rank child < rank exc)%nat.
Proof.
  destruct exc as [cause context suppress excs' stk only]. simpl.
  intros [= ->] Hin.
  apply Nat.lt_succ_r. etransitivity; [|apply Nat.le_max_r].
  etransitivity; [|apply Nat.le_max_r].
  induction excs as [|x l IH]; [contradiction|].
  destruct Hin as [->|Hin]; [apply Nat.le_max_l|].
  etransitivity; [exact (IH Hin) | apply Nat.le_max_r].
Qed.

Lemma rank_chain_output (exc : TE) :
  forall item, In item (chain_output exc) -> (rank (snd item) <= rank exc)%nat.
Proof.
  assert (H : forall n (exc : TE), (rank exc <= n)%nat ->
            forall item, In item (chain_output exc) -> (rank (snd item) <= rank exc)%nat).
  { induction n as [|n IH]; intros [cause context suppress excs stk only] Hn item Hin.
    - simpl in Hn. lia.
    - cbn [chain_output] in Hin. cbn [rank] in Hn.
      destruct cause as [c|].
      + destruct Hin as [<-|Hin]; [reflexivity|].
        assert (Hc : (rank c <= n)%nat) by lia.
        specialize (IH c Hc item Hin). cbn [rank]. lia.
      + destruct context as [c|].
        * destruct suppress; cbn [negb] in Hin.
          -- destruct Hin as [<-|[]]. reflexivity.
          -- destruct Hin as [<-|Hin]; [reflexivity|].
             assert (Hc : (rank c <= n)%nat) by lia.
             specialize (IH c Hc item Hin). cbn [rank]. lia.
        * destruct Hin as [<-|[]]. reflexivity. }
  intros item. apply (H (rank exc)). reflexivity.
Qed.

(** With fuel for the nesting of the tree, [format] returns, leaves the
    depth as it found it, and yields framed texts only. *)
Lemma format_triple (fuel : nat) :
  forall (exc : TE) (chain : bool) (d : Z),
    (rank exc <= fuel)%nat ->
    triple (depth_is d)
           (format StackSummary_format max_group_width max_group_depth fuel exc chain)
           (depth_is d) framed.
Proof.
  induction fuel as [|fuel IH]; intros exc chain d Hrank.
  - destruct exc; simpl in Hrank; lia.
  - cbn [format]. unfold format_body.
    apply triple_for_each. intros [msg x] Hin. apply in_rev in Hin.
    assert (Hx : (rank x <= S fuel)%nat).
    { destruct chain.
      - apply rank_chain_output in Hin. simpl in Hin. lia.
      - destruct Hin as [[= _ <-]|[]]. exact Hrank. }
    apply block_triple. intros excs child E Hchild d'.
    apply IH. pose proof (rank_child x child excs E Hchild). lia.
Qed.

Section Fuel.

Variables format_rec format_rec' : TE -> bool -> Gen unit.
Hypothesis rec_refines : forall exc chain, refines (format_rec exc chain) (format_rec' exc chain).

Lemma slot_refines excs chain num_excs n i :
  refines (slot max_group_width format_rec excs chain num_excs n i)
          (slot max_group_width format_rec' excs chain num_excs n i).
Proof.
  unfold slot.
  apply refines_bind; [apply refines_refl | intros _].
  apply refines_bind; [apply refines_refl | intros c].
  apply refines_bind; [apply refines_refl | intros _].
  apply refines_bind; [apply refines_refl | intros _].
  apply refines_bind; [| intros _; apply refines_refl].
  destruct (negb (i >=? max_group_width)); [|apply refines_refl].
  destruct (Py.getitem excs i); [apply rec_refines | apply refines_refl].
Qed.

Lemma format_group_refines exc excs chain :
  refines (format_group StackSummary_format max_group_width format_rec exc excs chain)
          (format_group StackSummary_format max_group_width format_rec' exc excs chain).
Proof.
  unfold format_group.
  apply refines_bind; [apply refines_refl | intros c].
  apply refines_bind; [apply refines_refl | intros _].
  apply refines_bind; [apply refines_refl | intros _].
  apply refines_bind; [apply refines_refl | intros _].
  apply refines_bind; [apply refines_refl | intros _].
  apply refines_bind; [| intros _; apply refines_refl].
  apply refines_for_each. intros i. apply slot_refines.
Qed.

Lemma format_body_refines exc chain :
  refines (format_body StackSummary_format max_group_width max_group_depth format_rec exc chain)
          (format_body StackSummary_format max_group_width max_group_depth format_rec' exc chain).
Proof.
  unfold format_body. apply refines_for_each. intros [msg x]. unfold block.
  apply refines_bind; [apply refines_refl | intros _].
  destruct (exceptions x) as [excs|]; [|apply refines_refl].
  apply refines_bind; [apply refines_refl | intros c].
  destruct (exception_group_depth c >? max_group_depth);
    [apply refines_refl | apply format_group_refines].
Qed.

End Fuel.

Lemma format_fuel_step (fuel : nat) :
  forall (exc : TE) (chain : bool),
    refines (format StackSummary_format max_group_width max_group_depth fuel exc chain)
            (format StackSummary_format max_group_width max_group_depth (S fuel) exc chain).
Proof.
  induction fuel as [|fuel IH]; intros exc chain.
  - intros ctx H. exfalso. apply H. reflexivity.
  - change (refines
      (format_body StackSummary_format max_group_width max_group_depth
         (format StackSummary_format max_group_width max_group_depth fuel) exc chain)
      (format_body StackSummary_format max_group_width max_group_depth
         (format StackSummary_format max_group_width max_group_depth (S fuel)) exc chain)).
    apply format_body_refines. exact IH.
Qed.

Lemma format_fuel_more (fuel k : nat) (exc : TE) (chain : bool) :
  refines (format StackSummary_format max_group_width max_group_depth fuel exc chain)
          (format StackSummary_format max_group_width max_group_depth (fuel + k) exc chain).
Proof.
  induction k as [|k IH]; intros ctx H.
  - rewrite Nat.add_0_r. reflexivity.
  - rewrite Nat.add_succ_r, <- (IH ctx H).
    apply format_fuel_step. rewrite (IH ctx H). exact H.
Qed.

(** The run of [format] on a tree: for every amount of fuel from the rank
    of the tree on, the same returned context and the same texts. *)
Lemma format_returns (exc : TE) (chain : bool) (ctx : _ExceptionPrintContext) :
  exists ctx' out,
    (forall k, format StackSummary_format max_group_width max_group_depth
                      (rank exc + k) exc chain ctx = Returned tt ctx' out)
    /\ exception_group_depth ctx' = exception_group_depth ctx
    /\ Forall framed out.
Proof.
  destruct (format_triple (rank exc) exc chain (exception_group_depth ctx) (le_n _) ctx eq_refl)
    as (ctx' & out & E & Hd & Hf).
  exists ctx', out. repeat split; [|exact Hd|exact Hf].
  intros k. rewrite <- E. apply format_fuel_more. rewrite E. discriminate.
Qed.

End FormatFacts.

(** ** Termination, depth restoration, framing *)

(** C8: on every exception tree, with either value of [chain] and any
    context (a fresh one when [_ctx] is [None]), the formatter returns:
    it raises neither the assertion error nor an index error, and any
    amount of fuel from the rank of the tree on gives the same run. *)
Theorem format_terminates_without_error
    {FrameSummary : Type} (StackSummary_format : list FrameSummary -> list string)
    (max_group_width max_group_depth : Z)
    (exc : TracebackException FrameSummary) (chain : bool)
    (_ctx : option _ExceptionPrintContext) :
  exists ctx' out, forall k,
    traceback_exception_format StackSummary_format max_group_width max_group_depth
      (rank exc + k) exc chain _ctx = Returned tt ctx' out.
Proof.
  unfold traceback_exception_format.
  destruct (format_returns StackSummary_format max_group_width max_group_depth exc chain
              (match _ctx with None => new_ctx | Some c => c end))
    as (ctx' & out & E & _).
  exists ctx', out. exact E.
Qed.

(** C9: a call of the formatter on any node, with any [chain] flag and
    any print context, run to its end, leaves [exception_group_depth] at
    the value it had on entry. *)
Theorem format_restores_depth
    {FrameSummary : Type} (StackSummary_format : list FrameSummary -> list string)
    (max_group_width max_group_depth : Z)
    (exc : TracebackException FrameSummary) (chain : bool)
    (ctx : _ExceptionPrintContext) :
  exists ctx' out,
    (forall k, format StackSummary_format max_group_width max_group_depth
                      (rank exc + k) exc chain ctx = Returned tt ctx' out)
    /\ exception_group_depth ctx' = exception_group_depth ctx.
Proof.
  destruct (format_returns StackSummary_format max_group_width max_group_depth exc chain ctx)
    as (ctx' & out & E & Hd & _).
  exists ctx', out. split; assumption.
Qed.

(** C5, as amended: every text yielded at a depth [d > 0] is either a
    block whose every line, blank ones included, begins with [2*d] spaces
    and ["| "], or the header of a group entered at depth 0 (behind
    ["  + "]), or a slot header line, or a closing frame; the last two
    are built from [indent()] alone and carry no margin. *)
Theorem format_yields_framed
    {FrameSummary : Type} (StackSummary_format : list FrameSummary -> list string)
    (max_group_width max_group_depth : Z)
    (exc : TracebackException FrameSummary) (chain : bool)
    (ctx : _ExceptionPrintContext) :
  exists ctx' out,
    (forall k, format StackSummary_format max_group_width max_group_depth
                      (rank exc + k) exc chain ctx = Returned tt ctx' out)
    /\ Forall framed out.
Proof.
  destruct (format_returns StackSummary_format max_group_width max_group_depth exc chain ctx)
    as (ctx' & out & E & _ & Hf).
  exists ctx', out. split; assumption.
Qed.

(** C5, as stated, fails: the header line of the first slot of a top-level
    group is yielded at depth 1 and begins with ["  +-+"], not with
    ["  | "] or ["  + "]. *)
Lemma slot_header_not_margin_prefixed :
  ~ Forall margin_prefixed (yields_of (render 3 (group "ExceptionGroup: eg (1 sub-exception)"
                                                  [leaf "ValueError: 1"]) true)).
Proof.
  intros H. rewrite Forall_forall in H.
  specialize (H (mkYielded 1 ("  +-+---------------- 1 ----------------" ++ nl))).
  assert (Hin : In (mkYielded 1 ("  +-+---------------- 1 ----------------" ++ nl))
                   (yields_of (render 3 (group "ExceptionGroup: eg (1 sub-exception)"
                                           [leaf "ValueError: 1"]) true))).
  { vm_compute. right. left. reflexivity. }
  specialize (H Hin ltac:(simpl; lia)).
  inversion H as [|? ? [Hp|Hp] _]; vm_compute in Hp; discriminate Hp.
Qed.

(** ** [indent] and [emit] *)

Lemma for_each_yield_run (f : string -> string) (l : list string) ctx :
  for_each l (fun s => yield (f s)) ctx
  = Returned tt ctx (map (fun s => mkYielded (exception_group_depth ctx) (f s)) l).
Proof.
  induction l as [|s l IH]; [reflexivity|].
  cbn [for_each]. unfold bind. cbn [yield]. rewrite IH. reflexivity.
Qed.

Lemma emit_run (tg : text_gen) (margin_char : option string) ctx :
  emit tg margin_char ctx = Returned tt ctx (emit_out ctx tg margin_char).
Proof.
  unfold emit, emit_out, emit_prefix, bind, get_ctx.
  destruct tg as [s|l]; cbn [blocks_of].
  - reflexivity.
  - rewrite for_each_yield_run. reflexivity.
Qed.

Lemma spaces_length (n : nat) : String.length (Py.str_repeat " " n) = n.
Proof. induction n as [|n IH]; simpl; [reflexivity | rewrite IH; reflexivity]. Qed.

Lemma spaces_get (n k : nat) (c : ascii) :
  String.get k (Py.str_repeat " " n) = Some c -> c = " "%char.
Proof.
  revert k. induction n as [|n IH]; intros k; simpl; [discriminate|].
  destruct k as [|k]; [intros [= <-]; reflexivity | apply IH].
Qed.

(** C7: [indent()] is [2 * depth] spaces, and [emit], given one text or
    a sequence of texts, yields one text for each, in which every line of
    the original, empty lines included, stands behind [indent()] and the
    margin character with a space when the depth is above zero, and
    behind [indent()] alone when the depth is zero. *)
Theorem emit_prefixes_every_line
    (ctx : _ExceptionPrintContext) (tg : text_gen) (margin_char : option string) :
  Py.no_linebreak (match margin_char with None => "|" | Some m => m end) = true ->
  (Z.of_nat (String.length (indent ctx)) = Z.max 0 (2 * exception_group_depth ctx)
   /\ forall k c, String.get k (indent ctx) = Some c -> c = " "%char)
  /\ exists pre out,
       (0 < exception_group_depth ctx ->
        pre = indent ctx ++ match margin_char with None => "|" | Some m => m end ++ " ")
       /\ (exception_group_depth ctx = 0 -> pre = indent ctx)
       /\ emit tg margin_char ctx = Returned tt ctx out
       /\ Forall2 (fun y block =>
                     at_depth y = exception_group_depth ctx
                     /\ Py.splitlines (text y)
                        = map (fun line => pre ++ line) (Py.splitlines block))
                  out (blocks_of tg).
Proof.
  intros Hm. split.
  - unfold indent, Py.str_mul. split.
    + rewrite spaces_length. lia.
    + intros k c. apply spaces_get.
  - exists (emit_prefix ctx margin_char), (emit_out ctx tg margin_char).
    unfold emit_prefix at 1 2.
    split; [|split; [|split]].
    + intros Hd. destruct (Z.eqb_spec (exception_group_depth ctx) 0); [lia | reflexivity].
    + intros ->. reflexivity.
    + apply emit_run.
    + assert (Hpre : Py.no_linebreak (emit_prefix ctx margin_char) = true).
      { unfold emit_prefix. destruct (exception_group_depth ctx =? 0).
        - apply no_linebreak_spaces.
        - apply no_linebreak_app; [apply no_linebreak_spaces|].
          apply no_linebreak_app; [exact Hm | reflexivity]. }
      unfold emit_out. induction (blocks_of tg) as [|b l IH]; simpl; constructor; auto.
      split; [reflexivity|]. apply PyFacts.splitlines_textwrap_indent. exact Hpre.
Qed.

(** [emit] at depth 2 on a text with a blank line. *)
Lemma emit_prefixes_every_line_witness :
  Py.no_linebreak "|" = true
  /\ Py.splitlines (Py.textwrap_indent ("a" ++ nl ++ nl ++ "b" ++ nl) "    | ")
     = ["    | a" ++ nl; "    | " ++ nl; "    | b" ++ nl].
Proof.
  split; [reflexivity|].
  destruct (emit_prefixes_every_line (mkCtx [] 2 false) (Str ("a" ++ nl ++ nl ++ "b" ++ nl)) None
              eq_refl) as [_ (pre & out & Hpos & _ & Hrun & Hall)].
  rewrite (Hpos eq_refl) in Hall. rewrite emit_run in Hrun.
  injection Hrun as <-. inversion Hall as [|? ? ? ? [_ Hlines] _]; subst.
  exact Hlines.
Defined.

(** ** The depth limit *)

(** C4: a group met while [exception_group_depth] is above
    [max_group_depth = 10] yields the one line
    ["... (max_group_depth is 10)"] behind the margin and goes into no
    child, whatever the recursive call would do; and in a nesting of 11
    levels the first 10 are rendered as groups and the 11th as that line
    only, whatever exceptions and text the 11th group holds. *)
Theorem depth_limit_truncates
    {FrameSummary : Type} (StackSummary_format : list FrameSummary -> list string)
    (max_group_width : Z)
    (format_rec : TracebackException FrameSummary -> bool -> Gen unit) (chain : bool)
    (exc : TracebackException FrameSummary) (excs : list (TracebackException FrameSummary))
    (ctx : _ExceptionPrintContext) :
  exceptions exc = Some excs ->
  exception_group_depth ctx > default_max_group_depth ->
  block StackSummary_format max_group_width default_max_group_depth format_rec chain (None, exc) ctx
  = Returned tt ctx
      [mkYielded (exception_group_depth ctx)
                 (indent ctx ++ "| " ++ "... (max_group_depth is 10)" ++ nl)]
  /\ forall (cs : list (TracebackException string)) (stk only : list string),
       lines_of (render 12 (nested 10 (mkTracebackException None None false (Some cs) stk only))
                        true)
       = List.app (List.concat (map level_lines (seq 0 10)))
                  [Py.str_mul " " 22 ++ "| ... (max_group_depth is 10)" ++ nl;
                   Py.str_mul " " 22 ++ "+------------------------------------" ++ nl].
Proof.
  intros Hexcs Hdepth. split.
  - unfold block, bind, ret, get_ctx. rewrite Hexcs.
    unfold default_max_group_depth in *.
    destruct (Z.gtb_spec (exception_group_depth ctx) 10) as [_|]; [|lia].
    rewrite emit_run. unfold emit_out, emit_prefix. cbn [blocks_of map app].
    destruct (Z.eqb_spec (exception_group_depth ctx) 0) as [|_]; [lia|].
    do 3 f_equal. unfold Py.textwrap_indent.
    change (Py.splitlines _) with ["... (max_group_depth is 10)" ++ nl].
    cbn [map Py.join]. rewrite PyFacts.app_nil_r_s, PyFacts.app_assoc_s. reflexivity.
  - intros cs stk only. vm_compute. reflexivity.
Qed.

(** A group of two met at depth 11. *)
Lemma depth_limit_truncates_witness :
  block preformatted default_max_group_width default_max_group_depth
        (fun _ _ => raise IndexError) true
        (None, group "ExceptionGroup: deep (2 sub-exceptions)" [leaf "a"; leaf "b"])
        (mkCtx [] 11 true)
  = Returned tt (mkCtx [] 11 true)
      [mkYielded 11 (Py.str_mul " " 22 ++ "| ... (max_group_depth is 10)" ++ nl)].
Proof.
  exact (proj1 (depth_limit_truncates preformatted default_max_group_width
                  (fun _ _ => raise IndexError) true
                  (group "ExceptionGroup: deep (2 sub-exceptions)" [leaf "a"; leaf "b"])
                  [leaf "a"; leaf "b"] (mkCtx [] 11 true) eq_refl eq_refl)).
Defined.

(** ** Frame lines and emitted blocks are told apart *)

Lemma lstrip_spaces_app (n : nat) (s : string) :
  lstrip_spaces (Py.str_repeat " " n ++ s) = lstrip_spaces s.
Proof. induction n as [|n IH]; simpl; [reflexivity | exact IH]. Qed.

Lemma slot_header_recognised ctx i title :
  is_slot_header (slot_header ctx i title) = true.
Proof.
  unfold is_slot_header, slot_header, indent, Py.str_mul.
  rewrite lstrip_spaces_app. apply orb_true_iff. destruct (i =? 0).
  - left. exact (prefix_app "+-+---------------- " (title ++ " ----------------" ++ nl)).
  - right. exact (prefix_app "+---------------- " (title ++ " ----------------" ++ nl)).
Qed.

Lemma closing_frame_recognised ctx : is_closing_frame (closing_frame ctx) = true.
Proof.
  unfold is_closing_frame, closing_frame, indent, Py.str_mul.
  rewrite lstrip_spaces_app. reflexivity.
Qed.

(** A text indented behind a margin is empty or begins with the prefix. *)
Lemma textwrap_indent_cases (s p : string) :
  Py.textwrap_indent s p = "" \/ exists rest, Py.textwrap_indent s p = p ++ rest.
Proof.
  unfold Py.textwrap_indent. destruct (Py.splitlines s) as [|line lines]; [left; reflexivity|].
  right. cbn [map Py.join]. rewrite PyFacts.app_assoc_s. eauto.
Qed.

(** Below depth 0 and above it, nothing that [emit] yields with the
    margins [format] uses can be taken for a frame line. *)
Lemma emit_out_no_frame_line ctx tg (margin_char : option string) :
  exception_group_depth ctx <> 0 ->
  margin_char = None \/ margin_char = Some "+" ->
  Forall no_frame_line (emit_out ctx tg margin_char).
Proof.
  intros Hd Hm. unfold emit_out, emit_prefix.
  destruct (Z.eqb_spec (exception_group_depth ctx) 0) as [|_]; [contradiction|].
  apply Forall_forall. intros y Hin. apply in_map_iff in Hin as (s & <- & _).
  unfold no_frame_line, is_slot_header, is_closing_frame. cbn [text].
  destruct (textwrap_indent_cases s
              (indent ctx ++ match margin_char with None => "|" | Some m => m end ++ " "))
    as [->|[rest ->]]; [split; reflexivity|].
  unfold indent, Py.str_mul. rewrite PyFacts.app_assoc_s, lstrip_spaces_app.
  destruct Hm as [->| ->]; split; reflexivity.
Qed.

(** ** Running generators step by step *)

Lemma runs_ret ctx : runs (ret tt) ctx ctx [].
Proof. reflexivity. Qed.

Lemma runs_bind (m k : Gen unit) ctx ctx1 ctx2 out1 out2 :
  runs m ctx ctx1 out1 -> runs k ctx1 ctx2 out2 ->
  runs (m ;; k) ctx ctx2 (out1 ++ out2).
Proof. unfold runs, bind. intros -> ->. reflexivity. Qed.

Lemma runs_get (k : _ExceptionPrintContext -> Gen unit) ctx ctx' out :
  runs (k ctx) ctx ctx' out -> runs (c <- get_ctx ;; k c) ctx ctx' out.
Proof. unfold runs, bind, get_ctx. intros ->. reflexivity. Qed.

Lemma runs_modify f ctx : runs (modify_ctx f) ctx (f ctx) [].
Proof. reflexivity. Qed.

Lemma runs_yield s ctx : runs (yield s) ctx ctx [mkYielded (exception_group_depth ctx) s].
Proof. reflexivity. Qed.

Lemma runs_emit tg margin_char ctx :
  runs (emit tg margin_char) ctx ctx (emit_out ctx tg margin_char).
Proof. apply emit_run. Qed.

Lemma runs_when_true (m : Gen unit) ctx ctx' out :
  runs m ctx ctx' out -> runs (when true m) ctx ctx' out.
Proof. auto. Qed.

Lemma runs_when_false (m : Gen unit) ctx : runs (when false m) ctx ctx [].
Proof. reflexivity. Qed.

Lemma runs_for_each_nil {A : Type} (body : A -> Gen unit) ctx :
  runs (for_each [] body) ctx ctx [].
Proof. reflexivity. Qed.

Lemma runs_for_each_cons {A : Type} (body : A -> Gen unit) x l ctx ctx1 ctx2 out1 out2 :
  runs (body x) ctx ctx1 out1 -> runs (for_each l body) ctx1 ctx2 out2 ->
  runs (for_each (x :: l) body) ctx ctx2 (out1 ++ out2).
Proof. apply runs_bind. Qed.

Lemma runs_eq (m : Gen unit) ctx ctx1 ctx2 out1 out2 :
  runs m ctx ctx1 out1 -> ctx1 = ctx2 -> out1 = out2 -> runs m ctx ctx2 out2.
Proof. intros H <- <-. exact H. Qed.

Lemma runs_det (m : Gen unit) ctx ctx1 ctx2 out1 out2 :
  runs m ctx ctx1 out1 -> runs m ctx ctx2 out2 -> ctx1 = ctx2 /\ out1 = out2.
Proof. unfold runs. intros -> [= -> ->]. auto. Qed.

(** One step of a run whose shape is known. *)
Ltac gen_step :=
  lazymatch goal with
  | |- runs (ret tt) _ _ _ => apply runs_ret
  | |- runs (emit _ _) _ _ _ => apply runs_emit
  | |- runs (yield _) _ _ _ => apply runs_yield
  | |- runs (modify_ctx _) _ _ _ => apply runs_modify
  | |- runs incr_depth _ _ _ => apply runs_modify
  | |- runs decr_depth _ _ _ => apply runs_modify
  | |- runs (when false _) _ _ _ => apply runs_when_false
  | |- runs (when true _) _ _ _ => apply runs_when_true
  | |- runs (for_each [] _) _ _ _ => apply runs_for_each_nil
  | |- runs (for_each (_ :: _) _) _ _ _ => eapply runs_for_each_cons
  | |- runs (bind get_ctx _) _ _ _ => eapply runs_get
  | |- runs (bind _ _) _ _ _ => eapply runs_bind
  end.

(** Bring a closed start context to a record. *)
Ltac norm_ctx :=
  try match goal with
      | |- runs _ ?c _ _ =>
          tryif is_evar c then fail else
            (let c' := eval cbv in c in change c with c')
      end.

Ltac gen_run := repeat (cbv beta; gen_step).

(** ** The empty group *)

Lemma range_nonpos (n : Z) : n <= 0 -> Py.range n = [].
Proof.
  intros H. unfold Py.range. replace (Z.to_nat n) with O by lia. reflexivity.
Qed.

(** C10: a group whose [exceptions] list is empty, met within the depth
    limit, yields its traceback header and stack (when it has a stack)
    and its exception-only texts, all through [emit], and nothing else:
    no slot header, no truncation slot, no closing frame. *)
Theorem empty_group_renders_header_only
    {FrameSummary : Type} (StackSummary_format : list FrameSummary -> list string)
    (max_group_width max_group_depth : Z)
    (format_rec : TracebackException FrameSummary -> bool -> Gen unit) (chain : bool)
    (exc : TracebackException FrameSummary) (ctx : _ExceptionPrintContext) :
  exceptions exc = Some [] ->
  exception_group_depth ctx <= max_group_depth ->
  let top := exception_group_depth ctx =? 0 in
  let ctx1 := if top then set_depth 1 ctx else ctx in
  let out :=
    ((if Nat.eqb (List.length (stack exc)) 0 then []
      else emit_out ctx1 (Str ("Exception Group Traceback (most recent call last):" ++ nl))
                    (if top then Some "+" else None)
           ++ emit_out ctx1 (Texts (StackSummary_format (stack exc))) None)
     ++ emit_out ctx1 (Texts (format_exception_only exc)) None)%list in
  block StackSummary_format max_group_width max_group_depth format_rec chain (None, exc) ctx
  = Returned tt (set_need_close false ctx) out
  /\ Forall no_frame_line out.
Proof.
  intros Hexcs Hdepth top ctx1 out. split.
  - change (runs (block StackSummary_format max_group_width max_group_depth
                        format_rec chain (None, exc)) ctx (set_need_close false ctx) out).
    unfold block. rewrite Hexcs.
    eapply runs_bind with (out1 := []); [apply runs_ret|]. eapply runs_get. cbv beta.
    destruct (Z.gtb_spec (exception_group_depth ctx) max_group_depth) as [|_]; [lia|].
    unfold format_group. eapply runs_get. cbv beta.
    cbn [List.length Z.of_nat].
    rewrite (range_nonpos (n_slots max_group_width 0))
      by (unfold n_slots; destruct (Z.leb_spec 0 max_group_width); lia).
    subst out ctx1 top.
    destruct ctx as [sn d nc]. cbn [exception_group_depth].
    destruct (Z.eqb_spec d 0) as [E0|NE0];
      destruct (Nat.eqb (List.length (stack exc)) 0); cbn [negb];
      try subst d;
      (eapply runs_eq;
       [ repeat (cbv beta;
                 cbn [exception_group_depth set_depth set_need_close
                      Z.add Z.eqb Pos.add Pos.eqb Pos.succ];
                 gen_step)
       | reflexivity
       | cbn [app]; rewrite ?app_nil_r; reflexivity ]).
  - subst out.
    assert (H1 : exception_group_depth ctx1 <> 0).
    { subst ctx1 top. destruct (Z.eqb_spec (exception_group_depth ctx) 0); simpl; lia. }
    apply Forall_app. split.
    + destruct (Nat.eqb (List.length (stack exc)) 0); [constructor|].
      apply Forall_app. split; apply emit_out_no_frame_line; auto.
      destruct top; auto.
    + apply emit_out_no_frame_line; auto.
Qed.

(** An empty group formatted from a fresh context. *)
Lemma empty_group_renders_header_only_witness :
  lines_of (block preformatted default_max_group_width default_max_group_depth
                  (fun _ _ => raise IndexError) true
                  (None, group "ExceptionGroup: none (0 sub-exceptions)" []) new_ctx)
  = ["  | ExceptionGroup: none (0 sub-exceptions)" ++ nl].
Proof.
  rewrite (proj1 (empty_group_renders_header_only preformatted
                    default_max_group_width default_max_group_depth
                    (fun _ _ => raise IndexError) true
                    (group "ExceptionGroup: none (0 sub-exceptions)" []) new_ctx
                    eq_refl ltac:(vm_compute; discriminate))).
  reflexivity.
Defined.

(** ** The chain *)

Section ChainFacts.

Context {FrameSummary : Type}.
Local Abbreviation TE := (TracebackException FrameSummary).

(** The [output] list, one turn of the loop at a time. *)
Lemma chain_output_step (exc : TE) :
  chain_output exc =
  match chained exc with
  | (msg, Some older) => (msg, exc) :: chain_output older
  | (msg, None) => [(msg, exc)]
  end.
Proof.
  destruct exc as [[c|] [x|] [|] excs stk only]; reflexivity.
Qed.

Lemma chained_linked (exc : TE) msg older :
  linked exc msg older -> chained exc = (Some msg, Some older).
Proof.
  unfold chained. intros [c H | c H1 H2 H3].
  - rewrite H. reflexivity.
  - rewrite H1, H2, H3. reflexivity.
Qed.

Lemma chained_unlinked (exc : TE) : unlinked exc -> chained exc = (None, None).
Proof.
  unfold chained. intros [H1 [H2|H2]]; rewrite H1.
  - rewrite H2. reflexivity.
  - rewrite H2. destruct (__context__ exc); reflexivity.
Qed.

Lemma chained_cases (exc : TE) :
  unlinked exc \/ exists msg older, linked exc msg older.
Proof.
  destruct (__cause__ exc) as [c|] eqn:Hc.
  - right. exists _cause_message, c. apply link_cause. exact Hc.
  - destruct (__context__ exc) as [c|] eqn:Hx.
    + destruct (__suppress_context__ exc) eqn:Hs.
      * left. split; auto.
      * right. exists _context_message, c. apply link_context; assumption.
    + left. split; auto.
Qed.

Lemma rank_linked (exc : TE) msg older : linked exc msg older -> (rank older < rank exc)%nat.
Proof.
  destruct exc as [cause context suppress excs stk only].
  intros [c H | c H1 H2 H3]; simpl in *; subst; lia.
Qed.

Lemma render_order_chain_output (exc : TE) : render_order exc (rev (chain_output exc)).
Proof.
  assert (H : forall n (exc : TE), (rank exc <= n)%nat ->
                                   render_order exc (rev (chain_output exc))).
  { induction n as [|n IH]; intros e Hn.
    - destruct e; simpl in Hn; lia.
    - rewrite chain_output_step.
      destruct (chained_cases e) as [Hu|(msg & older & Hl)].
      + rewrite (chained_unlinked e Hu). apply order_stop. exact Hu.
      + rewrite (chained_linked e msg older Hl). cbn [rev].
        apply (order_link e msg older); [exact Hl|].
        apply IH. pose proof (rank_linked e msg older Hl). lia. }
  apply (H (rank exc)). reflexivity.
Qed.

Lemma render_order_unique (exc : TE) slots :
  render_order exc slots -> slots = rev (chain_output exc).
Proof.
  induction 1 as [e Hu | e msg older slots Hl _ IH].
  - rewrite chain_output_step, (chained_unlinked e Hu). reflexivity.
  - rewrite chain_output_step, (chained_linked e msg older Hl). cbn [rev].
    rewrite IH. reflexivity.
Qed.

Lemma render_order_shape (exc : TE) slots :
  render_order exc slots ->
  exists root later before msg,
    slots = (None, root) :: later
    /\ Forall (fun slot => fst slot <> None) later
    /\ slots = (before ++ [(msg, exc)])%list.
Proof.
  induction 1 as [e Hu | e msg older slots Hl _ (root & later & before & m & -> & Hlater & _)].
  - exists e, [], [], None. repeat split; constructor.
  - exists root, (later ++ [(Some msg, e)])%list, ((None, root) :: later), (Some msg).
    repeat split.
    apply Forall_app. split; [exact Hlater|]. constructor; [discriminate | constructor].
Qed.

End ChainFacts.

Lemma block_separator
    {FrameSummary : Type} (StackSummary_format : list FrameSummary -> list string)
    (max_group_width max_group_depth : Z)
    (format_rec : TracebackException FrameSummary -> bool -> Gen unit) (chain : bool)
    (msg : string) (exc : TracebackException FrameSummary) (ctx : _ExceptionPrintContext) :
  block StackSummary_format max_group_width max_group_depth format_rec chain (Some msg, exc) ctx
  = (emit (Str msg) None ;;
     block StackSummary_format max_group_width max_group_depth format_rec chain (None, exc)) ctx.
Proof.
  unfold block.
  set (K := match exceptions exc with Some excs => _ | None => _ end).
  unfold bind, ret. rewrite emit_run.
  destruct (K ctx); reflexivity.
Qed.

(** C2: with [chain] set, the slots that [format] renders are those of
    the chain rule (cause first, else an unsuppressed context, else
    stop), oldest ancestor first and the node itself last; the first slot
    has no separator and every later one has the message of its link,
    which [block] emits before the slot's own text; a node that
    suppresses its context and has no cause is rendered alone. *)
Theorem chain_rendered_oldest_first
    {FrameSummary : Type} (StackSummary_format : list FrameSummary -> list string)
    (max_group_width max_group_depth : Z) (exc : TracebackException FrameSummary) :
  render_order exc (rev (chain_output exc))
  /\ (forall slots, render_order exc slots -> slots = rev (chain_output exc))
  /\ (exists root later before msg,
        rev (chain_output exc) = (None, root) :: later
        /\ Forall (fun slot => fst slot <> None) later
        /\ rev (chain_output exc) = (before ++ [(msg, exc)])%list)
  /\ (forall fuel ctx,
        format StackSummary_format max_group_width max_group_depth (S fuel) exc true ctx
        = for_each (rev (chain_output exc))
            (block StackSummary_format max_group_width max_group_depth
                   (format StackSummary_format max_group_width max_group_depth fuel) true) ctx)
  /\ (forall format_rec chain msg slot ctx,
        block StackSummary_format max_group_width max_group_depth format_rec chain
              (Some msg, slot) ctx
        = (emit (Str msg) None ;;
           block StackSummary_format max_group_width max_group_depth format_rec chain
                 (None, slot)) ctx)
  /\ (__cause__ exc = None -> __suppress_context__ exc = true ->
      rev (chain_output exc) = [(None, exc)]).
Proof.
  split; [apply render_order_chain_output|].
  split; [apply render_order_unique|].
  split; [apply render_order_shape, render_order_chain_output|].
  split; [reflexivity|].
  split; [intros; apply block_separator|].
  intros Hc Hs. rewrite chain_output_step, (chained_unlinked exc); [reflexivity|].
  split; auto.
Qed.

(** A suppressed context is not rendered; a cause is, first. *)
Lemma chain_rendered_oldest_first_witness :
  lines_of (render 1 suppressed_sample true) = ["ValueError: bad" ++ nl]
  /\ lines_of (render 1 caused_sample true)
     = ["KeyError: 'k'" ++ nl; _cause_message; "ValueError: bad" ++ nl].
Proof.
  split.
  - unfold render, traceback_exception_format.
    rewrite (proj1 (proj2 (proj2 (proj2 (chain_rendered_oldest_first preformatted
               default_max_group_width default_max_group_depth suppressed_sample))))).
    rewrite (proj2 (proj2 (proj2 (proj2 (proj2 (chain_rendered_oldest_first preformatted
               default_max_group_width default_max_group_depth suppressed_sample)))))
               eq_refl eq_refl).
    reflexivity.
  - reflexivity.
Defined.

(** ** One slot *)

Section SlotFacts.

Context {FrameSummary : Type}.
Variable max_group_width : Z.
Variable format_rec : TracebackException FrameSummary -> bool -> Gen unit.
Local Abbreviation TE := (TracebackException FrameSummary).

(** The run of a slot, given the run of what stands between its header
    and its end: the header comes first, the closing frame comes last and
    only if this is the last slot and [need_close] is still set. *)
Lemma slot_runs (excs : list TE) chain (num_excs n i : Z) ctx ctx_in ctx_out out :
  ctx_in = set_depth (exception_group_depth ctx + 1)
                     (if i =? n - 1 then set_need_close true ctx else ctx) ->
  runs (if negb (i >=? max_group_width) then
          match Py.getitem excs i with
          | Some child => format_rec child chain
          | None => raise IndexError
          end
        else
          emit (Str ("and " ++ Py.str_of_int (num_excs - max_group_width)
                     ++ " more exception"
                     ++ (if num_excs - max_group_width >? 1 then "s" else "") ++ nl)) None)
       ctx_in ctx_out out ->
  runs (slot max_group_width format_rec excs chain num_excs n i) ctx
       (set_depth (exception_group_depth ctx_out - 1)
          (if (i =? n - 1) && need_close ctx_out
           then set_need_close false ctx_out else ctx_out))
       (mkYielded (exception_group_depth ctx)
                  (slot_header ctx i (if negb (i >=? max_group_width)
                                      then Py.str_of_int (i + 1) else "..."))
        :: out
        ++ (if (i =? n - 1) && need_close ctx_out
            then [mkYielded (exception_group_depth ctx_out) (closing_frame ctx_out)]
            else [])).
Proof.
  intros -> Hbody. unfold slot. cbv zeta.
  destruct (i =? n - 1) eqn:Hlast; destruct (need_close ctx_out) eqn:Hclose; cbn [andb];
    (eapply runs_eq;
     [ repeat (cbv beta; rewrite ?Hclose; cbn [andb];
               first [ exact Hbody | gen_step ])
     | reflexivity
     | reflexivity ]).
Qed.

End SlotFacts.

(** ** Width *)

Lemma getitem_nth_error {A : Type} (l : list A) (i : Z) :
  0 <= i -> Py.getitem l i = nth_error l (Z.to_nat i).
Proof.
  intros H. unfold Py.getitem. destruct (Z.ltb_spec i 0); [lia | reflexivity].
Qed.

(** ** Zero and negative tunables *)

(** C6, as stated, fails for [max_group_depth = 0]: a group formatted
    from a fresh context is at depth 0, which is not above the limit, so
    it is rendered as a group, with its slots, and not as the truncation
    line.  It also fails for [max_group_width = 0] on a group without
    exceptions, which has no slot at all, the truncated one included. *)
Lemma zero_depth_renders_toplevel_group :
  (~ exists prefix,
       lines_of (traceback_exception_format preformatted default_max_group_width 0 2
                   (group "ExceptionGroup: eg (1 sub-exception)" [leaf "ValueError: 1"])
                   true None)
       = [prefix ++ "... (max_group_depth is 0)" ++ nl])
  /\ lines_of (traceback_exception_format preformatted default_max_group_width 0 2
                 (group "ExceptionGroup: eg (1 sub-exception)" [leaf "ValueError: 1"])
                 true None)
     = ["  | ExceptionGroup: eg (1 sub-exception)" ++ nl;
        "  +-+---------------- 1 ----------------" ++ nl;
        "    | ValueError: 1" ++ nl;
        "    +------------------------------------" ++ nl]
  /\ lines_of (traceback_exception_format preformatted 0 default_max_group_depth 1
                 (group "ExceptionGroup: none (0 sub-exceptions)" []) true None)
     = ["  | ExceptionGroup: none (0 sub-exceptions)" ++ nl].
Proof.
  split; [|split; vm_compute; reflexivity].
  intros [prefix H]. vm_compute in H. discriminate H.
Qed.

(** ** Leaves and the closing frame *)

Section LeafFacts.

Context {FrameSummary : Type}.
Variable StackSummary_format : list FrameSummary -> list string.
Variables max_group_width max_group_depth : Z.
Variable format_rec : TracebackException FrameSummary -> bool -> Gen unit.
Local Abbreviation TE := (TracebackException FrameSummary).

Lemma leaf_block_runs chain (slot : option string * TE) ctx :
  exceptions (snd slot) = None ->
  runs (block StackSummary_format max_group_width max_group_depth format_rec chain slot)
       ctx ctx (leaf_block_out StackSummary_format ctx slot).
Proof.
  destruct slot as [msg exc]. cbn [snd]. intros Hleaf.
  unfold block, leaf_block_out. rewrite Hleaf. cbn [fst snd].
  eapply runs_bind
    with (ctx1 := ctx)
         (out1 := match msg with Some m => emit_out ctx (Str m) None | None => [] end).
  { destruct msg; [apply runs_emit | apply runs_ret]. }
  eapply runs_bind; [|apply runs_emit].
  destruct (Nat.eqb (List.length (stack exc)) 0); cbn [negb].
  - apply runs_when_false.
  - apply runs_when_true. eapply runs_bind; apply runs_emit.
Qed.

Lemma leaf_slots_run chain (slots : list (option string * TE)) ctx :
  Forall (fun slot => exceptions (snd slot) = None) slots ->
  runs (for_each slots
          (block StackSummary_format max_group_width max_group_depth format_rec chain))
       ctx ctx (flat_map (leaf_block_out StackSummary_format ctx) slots).
Proof.
  induction 1 as [|slot slots Hleaf _ IH]; cbn [for_each flat_map].
  - apply runs_ret.
  - eapply runs_bind; [apply leaf_block_runs; exact Hleaf | exact IH].
Qed.

Lemma leaf_block_out_no_frame_line ctx (slot : option string * TE) :
  exception_group_depth ctx <> 0 ->
  Forall no_frame_line (leaf_block_out StackSummary_format ctx slot).
Proof.
  intros Hd. unfold leaf_block_out.
  repeat (apply Forall_app; split).
  - destruct (fst slot); [apply emit_out_no_frame_line; auto | constructor].
  - destruct (Nat.eqb (List.length (stack (snd slot))) 0); [constructor|].
    apply Forall_app; split; apply emit_out_no_frame_line; auto.
  - apply emit_out_no_frame_line; auto.
Qed.

End LeafFacts.

Lemma leaf_chain_runs
    {FrameSummary : Type} (StackSummary_format : list FrameSummary -> list string)
    (max_group_width max_group_depth : Z) (fuel : nat)
    (exc : TracebackException FrameSummary) (ctx : _ExceptionPrintContext) :
  leaf_chain exc ->
  runs (format StackSummary_format max_group_width max_group_depth (S fuel) exc true)
       ctx ctx (leaf_chain_out StackSummary_format ctx exc).
Proof.
  intros Hleaf. cbn [format]. unfold format_body, leaf_chain_out.
  apply leaf_slots_run. apply Forall_rev. exact Hleaf.
Qed.

Lemma leaf_chain_out_no_frame_line
    {FrameSummary : Type} (StackSummary_format : list FrameSummary -> list string)
    (exc : TracebackException FrameSummary) (ctx : _ExceptionPrintContext) :
  exception_group_depth ctx <> 0 ->
  Forall no_frame_line (leaf_chain_out StackSummary_format ctx exc).
Proof.
  intros Hd. unfold leaf_chain_out.
  induction (rev (chain_output exc)) as [|slot slots IH]; cbn [flat_map]; [constructor|].
  apply Forall_app. split; [apply leaf_block_out_no_frame_line; exact Hd | exact IH].
Qed.

Lemma closing_frames_app (a b : list Yielded) :
  closing_frames (a ++ b) = (closing_frames a + closing_frames b)%nat.
Proof. unfold closing_frames. rewrite filter_app, length_app. reflexivity. Qed.

Lemma closing_frames_none (out : list Yielded) :
  Forall no_frame_line out -> closing_frames out = O.
Proof.
  unfold closing_frames. induction 1 as [|y out [_ Hy] _ IH]; cbn [filter]; [reflexivity|].
  rewrite Hy. exact IH.
Qed.

(** C1, as stated, fails when a followed chain holds a group.  A leaf
    raised from a group is still a leaf (its [exceptions] are [None]),
    and its block begins with the rendering of that group.  As the first
    of two leaves it makes the output hold two closing frames, that of
    the cause and that of the second slot.  As the last of two leaves it
    makes the one closing frame of the output that of the cause, drawn
    one level down and before the separator message and the leaf's own
    text, which ends the output: the cause has used up [need_close].
    And a group of two plain leaves that was itself raised from a group
    is rendered after that group, so its output holds two closing
    frames. *)
Lemma group_caused_leaf_misplaces_closing_frame :
  exceptions group_caused_leaf = None
  /\ closing_frames
       (yields_of (render 3 (group "ExceptionGroup: eg (2 sub-exceptions)"
                               [group_caused_leaf; leaf "TypeError: 2"]) true)) = 2%nat
  /\ lines_of (render 3 (group "ExceptionGroup: eg (2 sub-exceptions)"
                           [leaf "TypeError: 1"; group_caused_leaf]) true)
     = ["  | ExceptionGroup: eg (2 sub-exceptions)" ++ nl;
        "  +-+---------------- 1 ----------------" ++ nl;
        "    | TypeError: 1" ++ nl;
        "    +---------------- 2 ----------------" ++ nl;
        "    | ExceptionGroup: inner (1 sub-exception)" ++ nl;
        "    +-+---------------- 1 ----------------" ++ nl;
        "      | KeyError: 'k'" ++ nl;
        "      +------------------------------------" ++ nl;
        "    | " ++ nl
          ++ "    | The above exception was the direct cause of the following exception:" ++ nl
          ++ "    | " ++ nl;
        "    | ValueError: bad" ++ nl]
  /\ closing_frames (yields_of (render 3 group_caused_group true)) = 2%nat.
Proof. repeat split; vm_compute; reflexivity. Qed.

(** C1, as amended: a top-level group with no followed link whose
    exceptions are two leaves with only leaves in their followed chains,
    formatted with [chain] set from a fresh context, yields its own
    texts, the header of slot 1, the whole block of the first leaf, the
    header of slot 2, the whole block of the second leaf and then the
    closing frame, which is the only closing frame of the output.  In
    general a last slot whose recursive call comes back with
    [need_close] cleared ends with the output of that call: the slot
    adds no closing frame of its own. *)
Theorem closing_frame_once_after_last_child
    {FrameSummary : Type} (StackSummary_format : list FrameSummary -> list string)
    (exc child1 child2 : TracebackException FrameSummary) (k : nat) :
  exceptions exc = Some [child1; child2] ->
  unlinked exc ->
  leaf_chain child1 ->
  leaf_chain child2 ->
  (exists head block1 block2,
      runs (format StackSummary_format default_max_group_width default_max_group_depth
                   (1 + k) child1 true)
           (mkCtx [] 2 false) (mkCtx [] 2 false) block1
      /\ runs (format StackSummary_format default_max_group_width default_max_group_depth
                      (1 + k) child2 true)
              (mkCtx [] 2 true) (mkCtx [] 2 true) block2
      /\ traceback_exception_format StackSummary_format default_max_group_width
           default_max_group_depth (2 + k) exc true None
         = Returned tt new_ctx
             (head
              ++ [mkYielded 1 ("  +-+---------------- 1 ----------------" ++ nl)]
              ++ block1
              ++ [mkYielded 1 ("    +---------------- 2 ----------------" ++ nl)]
              ++ block2
              ++ [mkYielded 2 ("    +------------------------------------" ++ nl)])%list
      /\ closing_frames
           (yields_of (traceback_exception_format StackSummary_format default_max_group_width
                         default_max_group_depth (2 + k) exc true None)) = 1%nat)
  /\ (forall (max_group_width : Z)
             (format_rec : TracebackException FrameSummary -> bool -> Gen unit)
             (excs : list (TracebackException FrameSummary)) (chain : bool)
             (num_excs n i : Z) (child : TracebackException FrameSummary)
             (ctx ctx_out : _ExceptionPrintContext) (out : list Yielded),
        i = n - 1 -> 0 <= i < max_group_width ->
        Py.getitem excs i = Some child ->
        runs (format_rec child chain)
             (set_depth (exception_group_depth ctx + 1) (set_need_close true ctx))
             ctx_out out ->
        need_close ctx_out = false ->
        runs (slot max_group_width format_rec excs chain num_excs n i) ctx
             (set_depth (exception_group_depth ctx_out - 1) ctx_out)
             (mkYielded (exception_group_depth ctx) (slot_header ctx i (Py.str_of_int (i + 1)))
              :: out)).
Proof.
  intros Hexcs Hunlinked Hleaf1 Hleaf2. split.
  - set (c1 := mkCtx [] 2 false). set (c2 := mkCtx [] 2 true).
    set (head :=
           ((if Nat.eqb (List.length (stack exc)) 0 then []
             else emit_out (mkCtx [] 1 false)
                    (Str ("Exception Group Traceback (most recent call last):" ++ nl))
                    (Some "+")
                  ++ emit_out (mkCtx [] 1 false)
                       (Texts (StackSummary_format (stack exc))) None)
            ++ emit_out (mkCtx [] 1 false) (Texts (format_exception_only exc)) None)%list).
    exists head, (leaf_chain_out StackSummary_format c1 child1),
           (leaf_chain_out StackSummary_format c2 child2).
    assert (Hrun :
      traceback_exception_format StackSummary_format default_max_group_width
        default_max_group_depth (2 + k) exc true None
      = Returned tt new_ctx
          (head
           ++ [mkYielded 1 ("  +-+---------------- 1 ----------------" ++ nl)]
           ++ leaf_chain_out StackSummary_format c1 child1
           ++ [mkYielded 1 ("    +---------------- 2 ----------------" ++ nl)]
           ++ leaf_chain_out StackSummary_format c2 child2
           ++ [mkYielded 2 ("    +------------------------------------" ++ nl)])%list).
    { unfold traceback_exception_format.
      change (runs (format StackSummary_format default_max_group_width default_max_group_depth
                           (S (S k)) exc true) new_ctx new_ctx
                   (head
                    ++ [mkYielded 1 ("  +-+---------------- 1 ----------------" ++ nl)]
                    ++ leaf_chain_out StackSummary_format c1 child1
                    ++ [mkYielded 1 ("    +---------------- 2 ----------------" ++ nl)]
                    ++ leaf_chain_out StackSummary_format c2 child2
                    ++ [mkYielded 2 ("    +------------------------------------" ++ nl)])%list).
      change (format StackSummary_format default_max_group_width default_max_group_depth
                     (S (S k)) exc true)
        with (format_body StackSummary_format default_max_group_width default_max_group_depth
                (format StackSummary_format default_max_group_width default_max_group_depth
                        (S k)) exc true).
      pose proof (fun c => leaf_chain_runs StackSummary_format default_max_group_width
                             default_max_group_depth k child1 c Hleaf1) as Hrun1.
      pose proof (fun c => leaf_chain_runs StackSummary_format default_max_group_width
                             default_max_group_depth k child2 c Hleaf2) as Hrun2.
      set (format_rec := format StackSummary_format default_max_group_width
                                default_max_group_depth (S k)) in *.
      unfold format_body.
      rewrite chain_output_step, (chained_unlinked exc Hunlinked). cbn [rev app for_each].
      unfold block. rewrite Hexcs. unfold format_group, new_ctx.
      cbn [List.length Z.of_nat Pos.of_succ_nat Pos.succ].
      change (Py.range (n_slots default_max_group_width 2)) with [0; 1].
      change (n_slots default_max_group_width 2) with 2.
      subst head.
      destruct (Nat.eqb (List.length (stack exc)) 0); cbn [negb];
        (eapply runs_eq;
         [ repeat (cbv beta; norm_ctx;
                   cbn [exception_group_depth set_depth set_need_close need_close
                        Z.add Z.eqb Z.gtb Z.compare Pos.add Pos.eqb Pos.succ Pos.compare
                        Pos.compare_cont default_max_group_depth];
                   first
                     [ gen_step
                     | eapply slot_runs;
                       [ reflexivity
                       | first [ change (Py.getitem [child1; child2] 0) with (Some child1);
                                 apply Hrun1
                               | change (Py.getitem [child1; child2] 1) with (Some child2);
                                 apply Hrun2 ] ] ])
         | reflexivity
         | cbn [app]; rewrite ?app_nil_r, <- ?app_assoc; cbn [app]; reflexivity ]). }
    split; [apply leaf_chain_runs; exact Hleaf1|].
    split; [apply leaf_chain_runs; exact Hleaf2|].
    split; [exact Hrun|].
    rewrite Hrun. cbn [yields_of]. rewrite !closing_frames_app.
    assert (Hhead : closing_frames head = O).
    { apply closing_frames_none. subst head. apply Forall_app. split.
      - destruct (Nat.eqb (List.length (stack exc)) 0); [constructor|].
        apply Forall_app. split; apply emit_out_no_frame_line; simpl; auto; lia.
      - apply emit_out_no_frame_line; simpl; auto; lia. }
    rewrite Hhead.
    rewrite (closing_frames_none (leaf_chain_out StackSummary_format c1 child1))
      by (apply leaf_chain_out_no_frame_line; simpl; lia).
    rewrite (closing_frames_none (leaf_chain_out StackSummary_format c2 child2))
      by (apply leaf_chain_out_no_frame_line; simpl; lia).
    reflexivity.
  - intros w format_rec excs chain num_excs n i child ctx ctx_out out Hi Hrange Hget Hrun Hclose.
    pose proof (slot_runs w format_rec excs chain num_excs n i ctx _ ctx_out out eq_refl) as H.
    assert (Hlast : (i =? n - 1) = true) by (apply Z.eqb_eq; exact Hi).
    rewrite Hlast, Hclose in H.
    destruct (Z.geb_spec i w) as [|_]; [lia|]. cbn [negb andb] in H.
    rewrite Hget, app_nil_r in H. exact (H Hrun).
Qed.

(** Two leaves; and a group as the last exception, whose closing frame
    is the only one. *)
Lemma closing_frame_once_after_last_child_witness :
  lines_of (render 2 (group "ExceptionGroup: eg (2 sub-exceptions)"
                        [leaf "ValueError: 1"; leaf "TypeError: 2"]) true)
  = ["  | ExceptionGroup: eg (2 sub-exceptions)" ++ nl;
     "  +-+---------------- 1 ----------------" ++ nl;
     "    | ValueError: 1" ++ nl;
     "    +---------------- 2 ----------------" ++ nl;
     "    | TypeError: 2" ++ nl;
     "    +------------------------------------" ++ nl]
  /\ closing_frames
       (yields_of (render 2 (group "ExceptionGroup: eg (2 sub-exceptions)"
                               [leaf "ValueError: 1"; leaf "TypeError: 2"]) true)) = 1%nat
  /\ lines_of (render 3 (group "ExceptionGroup: outer (2 sub-exceptions)"
                           [leaf "ValueError: 1";
                            group "ExceptionGroup: inner (1 sub-exception)"
                                  [leaf "TypeError: 2"]]) true)
     = ["  | ExceptionGroup: outer (2 sub-exceptions)" ++ nl;
        "  +-+---------------- 1 ----------------" ++ nl;
        "    | ValueError: 1" ++ nl;
        "    +---------------- 2 ----------------" ++ nl;
        "    | ExceptionGroup: inner (1 sub-exception)" ++ nl;
        "    +-+---------------- 1 ----------------" ++ nl;
        "      | TypeError: 2" ++ nl;
        "      +------------------------------------" ++ nl].
Proof.
  destruct (proj1 (closing_frame_once_after_last_child preformatted
                     (group "ExceptionGroup: eg (2 sub-exceptions)"
                            [leaf "ValueError: 1"; leaf "TypeError: 2"])
                     (leaf "ValueError: 1") (leaf "TypeError: 2") 0
                     eq_refl (conj eq_refl (or_introl eq_refl))
                     ltac:(unfold leaf_chain; simpl; repeat constructor)
                     ltac:(unfold leaf_chain; simpl; repeat constructor)))
    as (head & block1 & block2 & _ & _ & _ & Hcount).
  split; [reflexivity|]. split; [exact Hcount | reflexivity].
Defined.

(** * Further properties of the module *)

(** ** Depth 0 and plain exceptions *)

Lemma textwrap_indent_empty_prefix (s : string) : Py.textwrap_indent s "" = s.
Proof.
  unfold Py.textwrap_indent.
  replace (map (fun line => "" ++ line) (Py.splitlines s)) with (Py.splitlines s).
  - apply PyFacts.join_splitlines.
  - induction (Py.splitlines s) as [|l ls IH]; [reflexivity|].
    cbn [map]. rewrite <- IH. reflexivity.
Qed.

Lemma emit_out_depth_0 (ctx : _ExceptionPrintContext) (tg : text_gen)
    (margin_char : option string) :
  exception_group_depth ctx = 0 ->
  emit_out ctx tg margin_char = map (mkYielded 0) (blocks_of tg).
Proof.
  intros Hd. unfold emit_out, emit_prefix, indent. rewrite Hd. cbn [Z.eqb Z.mul].
  apply map_ext. intros s. change (Py.str_mul " " 0) with "".
  rewrite textwrap_indent_empty_prefix. reflexivity.
Qed.

(** X1: at depth 0 [emit] passes its texts through untouched, whatever
    the margin character and whatever line ends the texts hold: the
    lines that [textwrap.indent] splits are joined back into the text. *)
Theorem emit_at_depth_0_is_identity
    (ctx : _ExceptionPrintContext) (tg : text_gen) (margin_char : option string) :
  exception_group_depth ctx = 0 ->
  emit tg margin_char ctx = Returned tt ctx (map (mkYielded 0) (blocks_of tg)).
Proof.
  intros Hd. rewrite emit_run, (emit_out_depth_0 ctx tg margin_char Hd). reflexivity.
Qed.

(** [emit] from a fresh context on a text with CR LF and a blank line. *)
Lemma emit_at_depth_0_is_identity_witness :
  lines_of (emit (Str (String "a" (String Py.CR (String Py.LF (String Py.LF "b"))))) (Some "+")
                 new_ctx)
  = [String "a" (String Py.CR (String Py.LF (String Py.LF "b")))].
Proof.
  rewrite (emit_at_depth_0_is_identity new_ctx _ (Some "+") eq_refl). reflexivity.
Defined.

Lemma map_text_mkYielded (d : Z) (l : list string) : map text (map (mkYielded d) l) = l.
Proof. induction l as [|x l IH]; simpl; [reflexivity | rewrite IH; reflexivity]. Qed.

Lemma leaf_block_out_depth_0
    {FrameSummary : Type} (StackSummary_format : list FrameSummary -> list string)
    (ctx : _ExceptionPrintContext) (exc : TracebackException FrameSummary) :
  exception_group_depth ctx = 0 ->
  map text (leaf_block_out StackSummary_format ctx (None, exc))
  = plain_traceback StackSummary_format exc.
Proof.
  intros Hd. unfold leaf_block_out, plain_traceback. cbn [fst snd app].
  rewrite !map_app. destruct (Nat.eqb (List.length (stack exc)) 0).
  - rewrite (emit_out_depth_0 _ _ _ Hd), map_text_mkYielded. reflexivity.
  - rewrite map_app, !(emit_out_depth_0 _ _ _ Hd), !map_text_mkYielded. reflexivity.
Qed.

Lemma plain_exception_run
    {FrameSummary : Type} (StackSummary_format : list FrameSummary -> list string)
    (max_group_width max_group_depth : Z)
    (exc : TracebackException FrameSummary) (chain : bool) (k : nat) :
  exceptions exc = None ->
  chain = false \/ unlinked exc ->
  traceback_exception_format StackSummary_format max_group_width max_group_depth
    (1 + k) exc chain None
  = Returned tt new_ctx
      (map (mkYielded 0) (plain_traceback StackSummary_format exc)).
Proof.
  intros Hleaf Hchain. unfold traceback_exception_format.
  change (runs (format StackSummary_format max_group_width max_group_depth (S k) exc chain)
               new_ctx new_ctx
               (map (mkYielded 0) (plain_traceback StackSummary_format exc))).
  cbn [format]. unfold format_body.
  assert (Hout : (if chain then chain_output exc else [(None, exc)]) = [(None, exc)]).
  { destruct Hchain as [->|Hu]; [reflexivity|].
    destruct chain; [|reflexivity].
    rewrite chain_output_step, (chained_unlinked exc Hu). reflexivity. }
  rewrite Hout. cbn [rev app for_each].
  eapply runs_eq.
  - eapply runs_bind; [apply leaf_block_runs; exact Hleaf | apply runs_ret].
  - reflexivity.
  - rewrite app_nil_r. unfold leaf_block_out, plain_traceback. cbn [fst snd app].
    rewrite !(emit_out_depth_0 new_ctx _ _ eq_refl). cbn [blocks_of].
    destruct (Nat.eqb (List.length (stack exc)) 0); cbn [app map];
      rewrite ?map_app; reflexivity.
Qed.

(** X2: an exception that is no group and whose chain is not followed
    (no links, or [chain] unset) is rendered from a fresh context exactly
    as the plain traceback: header and frames when it has a stack, then
    its exception-only texts, with no margin, frame or separator. *)
Theorem plain_exception_rendered_unchanged
    {FrameSummary : Type} (StackSummary_format : list FrameSummary -> list string)
    (max_group_width max_group_depth : Z)
    (exc : TracebackException FrameSummary) (chain : bool) (k : nat) :
  exceptions exc = None ->
  chain = false \/ unlinked exc ->
  traceback_exception_format StackSummary_format max_group_width max_group_depth
    (1 + k) exc chain None
  = Returned tt new_ctx
      (map (mkYielded 0) (plain_traceback StackSummary_format exc)).
Proof. apply plain_exception_run. Qed.

(** A [ValueError] with one frame. *)
Lemma plain_exception_rendered_unchanged_witness :
  lines_of (traceback_exception_format preformatted default_max_group_width
              default_max_group_depth 1
              (mkTracebackException None None false None
                 ["  File f.py, line 1, in <module>" ++ nl] ["ValueError: bad" ++ nl])
              true None)
  = ["Traceback (most recent call last):" ++ nl;
     "  File f.py, line 1, in <module>" ++ nl;
     "ValueError: bad" ++ nl].
Proof.
  exact (f_equal lines_of
           (plain_exception_rendered_unchanged preformatted default_max_group_width
              default_max_group_depth
              (mkTracebackException None None false None
                 ["  File f.py, line 1, in <module>" ++ nl] ["ValueError: bad" ++ nl])
              true 0 eq_refl (or_intror (conj eq_refl (or_introl eq_refl))))).
Defined.

Lemma rank_positive {FrameSummary : Type} (exc : TracebackException FrameSummary) :
  exists k, rank exc = (1 + k)%nat.
Proof. destruct exc. simpl. eauto. Qed.

(** X3: for an exception that is no group and has no followed link, the
    excepthook writes to [sys.stderr] the plain traceback and nothing
    else: what was written before, then the header and the frames (when
    there is a stack), then the exception-only texts. *)
Theorem excepthook_writes_plain_traceback
    {FrameSummary : Type} (StackSummary_format : list FrameSummary -> list string)
    (max_group_width max_group_depth : Z)
    (exc : TracebackException FrameSummary) (stderr : string) :
  exceptions exc = None ->
  unlinked exc ->
  exceptiongroup_excepthook StackSummary_format max_group_width max_group_depth exc stderr
  = stderr ++ Py.join (plain_traceback StackSummary_format exc).
Proof.
  intros Hleaf Hu. unfold exceptiongroup_excepthook.
  destruct (rank_positive exc) as [k ->].
  rewrite (plain_exception_run StackSummary_format max_group_width max_group_depth
             exc true k Hleaf (or_intror Hu)).
  cbn [lines_of]. rewrite map_text_mkYielded. reflexivity.
Qed.

(** The hook on a [ValueError] with one frame. *)
Lemma excepthook_writes_plain_traceback_witness :
  exceptiongroup_excepthook preformatted default_max_group_width default_max_group_depth
    (mkTracebackException None None false None
       ["  File f.py, line 1, in <module>" ++ nl] ["ValueError: bad" ++ nl])
    "earlier output"
  = "earlier output" ++ "Traceback (most recent call last):" ++ nl
    ++ "  File f.py, line 1, in <module>" ++ nl ++ "ValueError: bad" ++ nl.
Proof.
  exact (excepthook_writes_plain_traceback preformatted default_max_group_width
           default_max_group_depth
           (mkTracebackException None None false None
              ["  File f.py, line 1, in <module>" ++ nl] ["ValueError: bad" ++ nl])
           "earlier output" eq_refl (conj eq_refl (or_introl eq_refl))).
Defined.

(** ** Chains compose *)

Lemma runs_ret_inv ctx ctx' out : runs (ret tt) ctx ctx' out -> ctx' = ctx /\ out = [].
Proof. unfold runs, ret. intros [= <- <-]. auto. Qed.

Lemma runs_bind_inv (m k : Gen unit) ctx ctx' out :
  runs (m ;; k) ctx ctx' out ->
  exists ctx1 out1 out2,
    runs m ctx ctx1 out1 /\ runs k ctx1 ctx' out2 /\ out = (out1 ++ out2)%list.
Proof.
  unfold runs, bind.
  destruct (m ctx) as [[] ctx1 out1| |] eqn:Em; [|discriminate|discriminate].
  destruct (k ctx1) as [[] ctx2 out2| |] eqn:Ek; [|discriminate|discriminate].
  intros [= <- <-]. exists ctx1, out1, out2. split; [reflexivity|]. split; [exact Ek|reflexivity].
Qed.

Lemma runs_for_each_snoc {A : Type} (body : A -> Gen unit) (l : list A) (x : A) :
  forall ctx ctx1 ctx2 out1 out2,
    runs (for_each l body) ctx ctx1 out1 ->
    runs (body x) ctx1 ctx2 out2 ->
    runs (for_each (l ++ [x]) body) ctx ctx2 (out1 ++ out2).
Proof.
  induction l as [|y l IH]; intros ctx ctx1 ctx2 out1 out2 Hl Hx; cbn [app for_each] in *.
  - apply runs_ret_inv in Hl as [-> ->].
    eapply runs_eq; [eapply runs_bind; [exact Hx | apply runs_ret] | reflexivity |].
    rewrite app_nil_r. reflexivity.
  - apply runs_bind_inv in Hl as (cm & oa & ob & Hy & Hl & ->).
    rewrite <- app_assoc. eapply runs_bind; [exact Hy|]. eapply IH; eassumption.
Qed.

(** X4: when [chain] is set and the exception has a followed link, its
    rendering is the whole rendering of the linked (older) exception,
    then the separator message of the link, then the exception's own
    block, each run from the context the one before left. *)
Theorem linked_exception_rendered_after_older
    {FrameSummary : Type} (StackSummary_format : list FrameSummary -> list string)
    (max_group_width max_group_depth : Z) (fuel : nat)
    (exc older : TracebackException FrameSummary) (msg : string)
    (ctx : _ExceptionPrintContext) :
  linked exc msg older ->
  (rank exc <= S fuel)%nat ->
  exists ctx1 out1 ctx2 out2,
    runs (format StackSummary_format max_group_width max_group_depth (S fuel) older true)
         ctx ctx1 out1
    /\ runs (block StackSummary_format max_group_width max_group_depth
                   (format StackSummary_format max_group_width max_group_depth fuel)
                   true (None, exc))
            ctx1 ctx2 out2
    /\ runs (format StackSummary_format max_group_width max_group_depth (S fuel) exc true)
            ctx ctx2 (out1 ++ emit_out ctx1 (Str msg) None ++ out2).
Proof.
  intros Hlink Hrank.
  pose proof (rank_linked exc msg older Hlink) as Holder.
  destruct (format_triple StackSummary_format max_group_width max_group_depth (S fuel)
              older true (exception_group_depth ctx) ltac:(lia) ctx eq_refl)
    as (ctx1 & out1 & Hrun1 & _ & _).
  destruct (block_triple StackSummary_format max_group_width max_group_depth
              (format StackSummary_format max_group_width max_group_depth fuel)
              true None exc (exception_group_depth ctx1)) with (ctx := ctx1)
    as (ctx2 & out2 & Hrun2 & _ & _).
  { intros excs child Hexcs Hin d'. apply format_triple.
    pose proof (rank_child exc child excs Hexcs Hin). lia. }
  { reflexivity. }
  exists ctx1, out1, ctx2, out2. split; [exact Hrun1|]. split; [exact Hrun2|].
  cbn [format] in *. unfold format_body in *.
  rewrite (chain_output_step exc), (chained_linked exc msg older Hlink). cbn [rev].
  eapply runs_for_each_snoc; [exact Hrun1|].
  unfold runs. rewrite block_separator.
  eapply runs_bind; [apply runs_emit | exact Hrun2].
Qed.

(** [raise ValueError("bad") from key_error]: the cause, the message, the
    exception. *)
Lemma linked_exception_rendered_after_older_witness :
  exists ctx1 out1 ctx2 out2,
    runs (format preformatted default_max_group_width default_max_group_depth 2
                 (leaf "KeyError: 'k'") true) new_ctx ctx1 out1
    /\ runs (block preformatted default_max_group_width default_max_group_depth
                   (format preformatted default_max_group_width default_max_group_depth 1)
                   true (None, caused_sample)) ctx1 ctx2 out2
    /\ runs (format preformatted default_max_group_width default_max_group_depth 2
                    caused_sample true)
            new_ctx ctx2 (out1 ++ emit_out ctx1 (Str _cause_message) None ++ out2).
Proof.
  exact (linked_exception_rendered_after_older preformatted default_max_group_width
           default_max_group_depth 1 caused_sample (leaf "KeyError: 'k'") _cause_message
           new_ctx (link_cause caused_sample (leaf "KeyError: 'k'") eq_refl)
           ltac:(vm_compute; lia)).
Defined.

(** ** Invariants of a whole call *)

Lemma triple_weaken_yields (R R' : Yielded -> Prop) (P Q : _ExceptionPrintContext -> Prop) m :
  (forall y, R y -> R' y) -> triple P m Q R -> triple P m Q R'.
Proof.
  intros HR H ctx Hctx. destruct (H ctx Hctx) as (ctx' & out & E & Hq & Hr).
  exists ctx', out. repeat split; auto. eapply Forall_impl; eauto.
Qed.

Lemma triple_for_each_snoc {A : Type} (R : Yielded -> Prop)
    (I Q : _ExceptionPrintContext -> Prop) (l : list A) (x : A) body :
  (forall y, In y l -> triple I (body y) I R) ->
  triple I (body x) Q R ->
  triple I (for_each (l ++ [x]) body) Q R.
Proof.
  intros Hl Hx ctx Hctx.
  destruct (triple_for_each R I l body Hl ctx Hctx) as (ctx1 & out1 & E1 & Hi & Hr1).
  destruct (Hx ctx1 Hi) as (ctx2 & out2 & E2 & Hq & Hr2).
  exists ctx2, (out1 ++ out2)%list. split; [|split; [exact Hq | apply Forall_app; auto]].
  exact (runs_for_each_snoc body l x ctx ctx1 ctx2 out1 out2 E1 E2).
Qed.

Lemma range_snoc (n : Z) : 0 < n -> Py.range n = (Py.range (n - 1) ++ [n - 1])%list.
Proof.
  intros Hn. unfold Py.range.
  replace (Z.to_nat n) with (S (Z.to_nat (n - 1))) by lia.
  rewrite seq_S, map_app. cbn [map Nat.add]. f_equal. f_equal. lia.
Qed.

Section Invariants.

Context {FrameSummary : Type}.
Variable StackSummary_format : list FrameSummary -> list string.
Variable max_group_width : Z.
Variable max_group_depth : Z.
Local Abbreviation TE := (TracebackException FrameSummary).

(** A family of properties of yields, indexed by the depth at which the
    call that yields was entered, and closed under the ways [format]
    yields. *)
Variable R : Z -> Yielded -> Prop.
Variable seen_ids : list Z.

Hypothesis R_emit :
  forall c tg margin_char, Forall (R (exception_group_depth c)) (emit_out c tg margin_char).
Hypothesis R_slot :
  forall c i title, R (exception_group_depth c)
                      (mkYielded (exception_group_depth c) (slot_header c i title)).
Hypothesis R_close :
  forall c, exception_group_depth c - 1 <= Z.max max_group_depth 1 ->
            R (exception_group_depth c - 1)
              (mkYielded (exception_group_depth c) (closing_frame c)).
Hypothesis R_child :
  forall d y, d <= Z.max max_group_depth 1 -> R (d + 1) y -> R d y.
Hypothesis R_top : forall y, 0 <= max_group_depth -> R 1 y -> R 0 y.

Local Abbreviation inv := (ctx_inv seen_ids).

Local Abbreviation child_inv := (child_invariant R seen_ids).

Lemma inv_weaken b d c : inv b d c -> inv false d c.
Proof. intros (H1 & H2 & _). repeat split; auto. discriminate. Qed.

Lemma emit_inv b d tg margin_char :
  triple (inv b d) (emit tg margin_char) (inv b d) (R d).
Proof.
  intros ctx Hctx. exists ctx, (emit_out ctx tg margin_char).
  split; [apply emit_run|]. split; [exact Hctx|].
  destruct Hctx as (<- & _). apply R_emit.
Qed.

Lemma slot_inv format_rec (excs : list TE) chain (num_excs n i d : Z) :
  d <= Z.max max_group_depth 1 ->
  (i < max_group_width ->
   exists child, Py.getitem excs i = Some child /\ child_inv format_rec chain child) ->
  triple (inv false d)
         (slot max_group_width format_rec excs chain num_excs n i)
         (inv (i =? n - 1) d) (R d).
Proof.
  intros Hd Hchild ctx (Hdepth & Hseen & _).
  set (ctx_in := set_depth (exception_group_depth ctx + 1)
                   (if i =? n - 1 then set_need_close true ctx else ctx)).
  assert (Hin : inv false (d + 1) ctx_in).
  { subst ctx_in. destruct (i =? n - 1); repeat split; simpl; try lia; try assumption;
      discriminate. }
  assert (Hbody : exists ctx_out out,
             runs (if negb (i >=? max_group_width) then
                     match Py.getitem excs i with
                     | Some child => format_rec child chain
                     | None => raise IndexError
                     end
                   else
                     emit (Str ("and " ++ Py.str_of_int (num_excs - max_group_width)
                                ++ " more exception"
                                ++ (if num_excs - max_group_width >? 1 then "s" else "")
                                ++ nl)) None)
                  ctx_in ctx_out out
             /\ inv false (d + 1) ctx_out /\ Forall (R (d + 1)) out).
  { destruct (Z.geb_spec i max_group_width) as [Hge|Hlt]; cbn [negb].
    - apply (emit_inv false (d + 1)). exact Hin.
    - destruct (Hchild Hlt) as (child & -> & Hok). apply (Hok (d + 1)). exact Hin. }
  destruct Hbody as (ctx_out & out & Hrun & (Hd' & Hs' & _) & Hout).
  pose proof (slot_runs max_group_width format_rec excs chain num_excs n i
                ctx ctx_in ctx_out out eq_refl Hrun) as Hslot.
  eexists _, _. split; [exact Hslot|]. split.
  - destruct (i =? n - 1); cbn [andb].
    + destruct (need_close ctx_out) eqn:Hnc; repeat split; simpl; try lia; auto.
    + repeat split; simpl; try lia; auto; discriminate.
  - constructor.
    + rewrite <- Hdepth. apply R_slot.
    + apply Forall_app. split.
      * eapply Forall_impl; [|exact Hout]. intros y. apply R_child. exact Hd.
      * destruct ((i =? n - 1) && need_close ctx_out); [|constructor].
        constructor; [|constructor].
        replace d with (exception_group_depth ctx_out - 1) by lia.
        apply R_close. lia.
Qed.

Lemma slots_inv format_rec (excs : list TE) chain (d : Z) :
  d <= Z.max max_group_depth 1 ->
  (forall child, In child excs -> child_inv format_rec chain child) ->
  triple (inv true d)
         (for_each (Py.range (n_slots max_group_width (Z.of_nat (List.length excs))))
            (slot max_group_width format_rec excs chain (Z.of_nat (List.length excs))
                  (n_slots max_group_width (Z.of_nat (List.length excs)))))
         (inv true d) (R d).
Proof.
  intros Hd Hkids.
  set (m := Z.of_nat (List.length excs)). set (n := n_slots max_group_width m).
  assert (Hslot : forall i, 0 <= i < n ->
            triple (inv false d) (slot max_group_width format_rec excs chain m n i)
                   (inv (i =? n - 1) d) (R d)).
  { intros i Hi. apply slot_inv; [exact Hd|]. intros Hlt.
    destruct (getitem_in_range excs i) as (child & E & Hin).
    - subst n m. unfold n_slots in Hi.
      destruct (Z.leb_spec (Z.of_nat (List.length excs)) max_group_width); lia.
    - exists child. split; [exact E | apply Hkids; exact Hin]. }
  destruct (Z.ltb_spec 0 n) as [Hpos|Hnpos].
  - rewrite (range_snoc n Hpos).
    apply (triple_pre (R d) (inv false d)); [|apply inv_weaken].
    apply triple_for_each_snoc.
    + intros i Hi. apply range_bounds in Hi.
      apply (triple_post (R d) _ (inv (i =? n - 1) d)); [|apply inv_weaken].
      apply Hslot. lia.
    + apply (triple_post (R d) _ (inv (n - 1 =? n - 1) d)); [apply Hslot; lia|].
      rewrite Z.eqb_refl. auto.
  - rewrite (range_nonpos n Hnpos). apply triple_ret.
Qed.

Lemma format_group_inv format_rec (exc : TE) (excs : list TE) chain (d : Z) :
  d <= max_group_depth ->
  (forall child, In child excs -> child_inv format_rec chain child) ->
  triple (inv false d)
         (format_group StackSummary_format max_group_width format_rec exc excs chain)
         (inv true d) (R d).
Proof.
  intros Hd Hkids. unfold format_group.
  apply triple_get. intros c (Hc & Hs & _).
  apply (triple_pre (R d) (inv false d));
    [|intros ? ->; repeat split; auto; discriminate].
  destruct (Z.eqb_spec (exception_group_depth c) 0) as [E0|NE0].
  - assert (Hd0 : d = 0) by lia. clear Hc E0. subst d.
    apply (triple_weaken_yields (R 1)); [intros y; apply R_top; exact Hd|].
    apply (triple_bind _ _ (inv false 1)).
    { apply triple_when; [|discriminate]. intros _. unfold incr_depth.
      apply triple_modify. intros ? (H1 & H2 & _).
      repeat split; simpl; auto; try lia; try discriminate. }
    apply (triple_bind _ _ (inv false 1)).
    { apply triple_when; [|auto]. intros _.
      apply (triple_bind _ _ (inv false 1)); apply emit_inv. }
    apply (triple_bind _ _ (inv false 1)); [apply emit_inv|].
    apply (triple_bind _ _ (inv true 1)).
    { apply triple_modify. intros ? (H1 & H2 & _). repeat split; auto. }
    apply (triple_bind _ _ (inv true 1)); [apply slots_inv; [lia | exact Hkids]|].
    apply triple_when; [|discriminate]. intros _.
    apply triple_get. intros c' (Hc' & Hs' & Hn'). rewrite Hc'. cbn [Z.eqb Pos.eqb].
    apply triple_modify. intros ? ->. repeat split; auto.
  - apply (triple_bind _ _ (inv false d)).
    { apply triple_when; [discriminate | auto]. }
    apply (triple_bind _ _ (inv false d)).
    { apply triple_when; [|auto]. intros _.
      apply (triple_bind _ _ (inv false d)); apply emit_inv. }
    apply (triple_bind _ _ (inv false d)); [apply emit_inv|].
    apply (triple_bind _ _ (inv true d)).
    { apply triple_modify. intros ? (H1 & H2 & _). repeat split; auto. }
    apply (triple_bind _ _ (inv true d)); [apply slots_inv; [lia | exact Hkids]|].
    apply triple_when; [discriminate | auto].
Qed.

Lemma block_inv format_rec chain (msg : option string) (exc : TE) (b : bool) (d : Z) :
  (forall excs child, exceptions exc = Some excs -> In child excs ->
                      child_inv format_rec chain child) ->
  triple (inv b d)
         (block StackSummary_format max_group_width max_group_depth format_rec chain (msg, exc))
         (inv b d) (R d).
Proof.
  intros Hkids. unfold block.
  apply (triple_bind _ _ (inv b d)).
  { destruct msg; [apply emit_inv | apply triple_ret]. }
  destruct (exceptions exc) as [excs|] eqn:E.
  - apply triple_get. intros c Hc.
    apply (triple_pre (R d) (inv b d)); [|intros ? ->; exact Hc].
    destruct (Z.gtb_spec (exception_group_depth c) max_group_depth) as [Hgt|Hle].
    + apply emit_inv.
    + apply (triple_pre (R d) (inv false d)); [|apply inv_weaken].
      apply (triple_post (R d) _ (inv true d)).
      * apply format_group_inv; [destruct Hc; lia|].
        intros child Hin. exact (Hkids excs child eq_refl Hin).
      * intros c' (H1 & H2 & H3). repeat split; auto.
  - apply (triple_bind _ _ (inv b d)); [|apply emit_inv].
    apply triple_when; [|auto]. intros _.
    apply (triple_bind _ _ (inv b d)); apply emit_inv.
Qed.

Lemma format_inv (fuel : nat) :
  forall (exc : TE) (chain : bool) (b : bool) (d : Z),
    (rank exc <= fuel)%nat ->
    triple (inv b d)
           (format StackSummary_format max_group_width max_group_depth fuel exc chain)
           (inv b d) (R d).
Proof.
  induction fuel as [|fuel IH]; intros exc chain b d Hrank.
  - destruct exc; simpl in Hrank; lia.
  - cbn [format]. unfold format_body.
    apply triple_for_each. intros [msg x] Hin. apply in_rev in Hin.
    assert (Hx : (rank x <= S fuel)%nat).
    { destruct chain.
      - apply rank_chain_output in Hin. simpl in Hin. lia.
      - destruct Hin as [[= _ <-]|[]]. exact Hrank. }
    apply block_inv. intros excs child E Hchild d'.
    apply IH. pose proof (rank_child x child excs E Hchild). lia.
Qed.

(** The run on a tree, with what the invariant gives of it. *)
Lemma format_inv_returns (exc : TE) (chain : bool) (ctx : _ExceptionPrintContext) :
  seen ctx = seen_ids ->
  exists ctx' out,
    (forall k, format StackSummary_format max_group_width max_group_depth
                      (rank exc + k) exc chain ctx = Returned tt ctx' out)
    /\ inv (negb (need_close ctx)) (exception_group_depth ctx) ctx'
    /\ Forall (R (exception_group_depth ctx)) out.
Proof.
  intros Hseen.
  destruct (format_inv (rank exc) exc chain (negb (need_close ctx))
              (exception_group_depth ctx) (le_n _) ctx)
    as (ctx' & out & E & Hinv & Hout).
  { repeat split; auto. destruct (need_close ctx); [discriminate | reflexivity]. }
  exists ctx', out. repeat split; try apply Hinv; [|exact Hout].
  intros k. rewrite <- E. apply format_fuel_more. rewrite E. discriminate.
Qed.

End Invariants.

(** X5: a call of the formatter, run to its end, never touches [seen],
    never leaves [need_close] set unless it was set on entry, and hands
    back a context that owed no closing frame exactly as it got it; so a
    context can be used for a second call with the same result. *)
Theorem format_leaves_context
    {FrameSummary : Type} (StackSummary_format : list FrameSummary -> list string)
    (max_group_width max_group_depth : Z)
    (exc : TracebackException FrameSummary) (chain : bool)
    (ctx : _ExceptionPrintContext) :
  exists ctx' out,
    (forall k, format StackSummary_format max_group_width max_group_depth
                      (rank exc + k) exc chain ctx = Returned tt ctx' out)
    /\ seen ctx' = seen ctx
    /\ (need_close ctx' = true -> need_close ctx = true)
    /\ (need_close ctx = false -> ctx' = ctx).
Proof.
  destruct (format_inv_returns StackSummary_format max_group_width max_group_depth
              (fun _ _ => True) (seen ctx)) with (exc := exc) (chain := chain) (ctx := ctx)
    as (ctx' & out & E & (Hd & Hs & Hn) & _); auto.
  { intros. apply Forall_forall. auto. }
  exists ctx', out. split; [exact E|]. split; [exact Hs|]. split.
  - intros Hset. destruct (need_close ctx); [reflexivity|].
    rewrite (Hn eq_refl) in Hset. discriminate.
  - intros Hclear. rewrite Hclear in Hn. specialize (Hn eq_refl).
    destruct ctx as [sn d nc], ctx' as [sn' d' nc']. simpl in *. subst. reflexivity.
Qed.

(** A group of two, formatted twice with the same context. *)
Lemma format_leaves_context_witness :
  format preformatted default_max_group_width default_max_group_depth 2
         (group "ExceptionGroup: eg (2 sub-exceptions)" [leaf "a"; leaf "b"]) true new_ctx
  = Returned tt new_ctx
      (yields_of (format preformatted default_max_group_width default_max_group_depth 2
                    (group "ExceptionGroup: eg (2 sub-exceptions)" [leaf "a"; leaf "b"])
                    true new_ctx)).
Proof.
  destruct (format_leaves_context preformatted default_max_group_width default_max_group_depth
              (group "ExceptionGroup: eg (2 sub-exceptions)" [leaf "a"; leaf "b"]) true new_ctx)
    as (ctx' & out & E & _ & _ & Hsame).
  assert (E2 : format preformatted default_max_group_width default_max_group_depth 2
                      (group "ExceptionGroup: eg (2 sub-exceptions)" [leaf "a"; leaf "b"])
                      true new_ctx = Returned tt ctx' out) by exact (E 0%nat).
  rewrite E2, (Hsame eq_refl). reflexivity.
Defined.

(** X6: every text of a call entered at depth [d] is yielded at a depth
    between [d] and the larger of [d] and [max(max_group_depth, 1) + 1]:
    nothing is yielded above the depth of the caller, and however deep
    the tree is, the indentation stops growing one level past the limit
    (depth 11 for the limit 10, from a fresh context). *)
Theorem format_yield_depth_bounds
    {FrameSummary : Type} (StackSummary_format : list FrameSummary -> list string)
    (max_group_width max_group_depth : Z)
    (exc : TracebackException FrameSummary) (chain : bool)
    (ctx : _ExceptionPrintContext) :
  exists ctx' out,
    (forall k, format StackSummary_format max_group_width max_group_depth
                      (rank exc + k) exc chain ctx = Returned tt ctx' out)
    /\ Forall (fun y =>
                 exception_group_depth ctx <= at_depth y
                 <= Z.max (exception_group_depth ctx) (Z.max max_group_depth 1 + 1)) out.
Proof.
  destruct (format_inv_returns StackSummary_format max_group_width max_group_depth
              (depth_within max_group_depth) (seen ctx))
    with (exc := exc) (chain := chain) (ctx := ctx)
    as (ctx' & out & E & _ & Hout); auto; unfold depth_within.
  - intros c tg m. unfold emit_out. apply Forall_forall. intros y Hy.
    apply in_map_iff in Hy as (s & <- & _). simpl. lia.
  - intros. simpl. lia.
  - intros. simpl. lia.
  - intros. lia.
  - intros. lia.
  - exists ctx', out. split; [exact E | exact Hout].
Qed.

(** ** [chain] unset *)

Lemma gen_eq_bind {A B : Type} (m m' : Gen A) (k k' : A -> Gen B) :
  gen_eq m m' -> (forall a, gen_eq (k a) (k' a)) -> gen_eq (bind m k) (bind m' k').
Proof.
  intros Hm Hk ctx. unfold bind. rewrite (Hm ctx).
  destruct (m' ctx) as [a ctx1 out1| |]; [|reflexivity|reflexivity].
  rewrite (Hk a ctx1). reflexivity.
Qed.

Lemma gen_eq_refl {A : Type} (m : Gen A) : gen_eq m m.
Proof. intros ctx. reflexivity. Qed.

Lemma gen_eq_for_each {A B : Type} (f : A -> B) (l : list A)
    (body : A -> Gen unit) (body' : B -> Gen unit) :
  (forall x, gen_eq (body x) (body' (f x))) ->
  gen_eq (for_each l body) (for_each (map f l) body').
Proof.
  intros H. induction l as [|x l IH]; cbn [map for_each].
  - apply gen_eq_refl.
  - apply gen_eq_bind; [apply H | intros _; exact IH].
Qed.

Lemma getitem_map {A B : Type} (f : A -> B) (l : list A) (i : Z) :
  Py.getitem (map f l) i = option_map f (Py.getitem l i).
Proof.
  unfold Py.getitem. rewrite length_map.
  destruct (i <? 0); [destruct (Z.of_nat (List.length l) + i <? 0); [reflexivity|]|];
    apply nth_error_map.
Qed.

Section Unchain.

Context {FrameSummary : Type}.
Variable StackSummary_format : list FrameSummary -> list string.
Variables max_group_width max_group_depth : Z.
Local Abbreviation TE := (TracebackException FrameSummary).

Lemma unchain_fields (exc : TE) :
  exceptions (unchain exc) = option_map (map unchain) (exceptions exc)
  /\ stack (unchain exc) = stack exc
  /\ format_exception_only (unchain exc) = format_exception_only exc
  /\ chain_output (unchain exc) = [(None, unchain exc)].
Proof. destruct exc as [c x sp [l|] stk only]; repeat split. Qed.

Variables format_rec format_rec' : TE -> bool -> Gen unit.
Hypothesis rec_eq : forall child, gen_eq (format_rec child false) (format_rec' (unchain child) true).

Lemma slot_unchain (excs : list TE) num_excs n i :
  gen_eq (slot max_group_width format_rec excs false num_excs n i)
         (slot max_group_width format_rec' (map unchain excs) true num_excs n i).
Proof.
  unfold slot.
  apply gen_eq_bind; [apply gen_eq_refl | intros _].
  apply gen_eq_bind; [apply gen_eq_refl | intros c].
  apply gen_eq_bind; [apply gen_eq_refl | intros _].
  apply gen_eq_bind; [apply gen_eq_refl | intros _].
  apply gen_eq_bind; [| intros _; apply gen_eq_refl].
  destruct (negb (i >=? max_group_width)); [|apply gen_eq_refl].
  rewrite getitem_map. destruct (Py.getitem excs i); cbn [option_map];
    [apply rec_eq | apply gen_eq_refl].
Qed.

Lemma block_unchain (exc : TE) :
  gen_eq (block StackSummary_format max_group_width max_group_depth format_rec false
                (None, exc))
         (block StackSummary_format max_group_width max_group_depth format_rec' true
                (None, unchain exc)).
Proof.
  destruct (unchain_fields exc) as (He & Hs & Ho & _).
  unfold block. rewrite He, Hs, Ho.
  apply gen_eq_bind; [apply gen_eq_refl | intros _].
  destruct (exceptions exc) as [excs|]; cbn [option_map]; [|apply gen_eq_refl].
  apply gen_eq_bind; [apply gen_eq_refl | intros c].
  destruct (exception_group_depth c >? max_group_depth); [apply gen_eq_refl|].
  unfold format_group. rewrite Hs, Ho, length_map.
  apply gen_eq_bind; [apply gen_eq_refl | intros c'].
  apply gen_eq_bind; [apply gen_eq_refl | intros _].
  apply gen_eq_bind; [apply gen_eq_refl | intros _].
  apply gen_eq_bind; [apply gen_eq_refl | intros _].
  apply gen_eq_bind; [apply gen_eq_refl | intros _].
  apply gen_eq_bind; [| intros _; apply gen_eq_refl].
  rewrite <- (map_id (Py.range _)) at 2.
  apply gen_eq_for_each. intros i. apply slot_unchain.
Qed.

End Unchain.

(** X7: formatting with [chain] unset is formatting the tree stripped of
    every [__cause__] and [__context__], sub-exceptions included: no link
    is followed at any level and no separator message is yielded. *)
Theorem format_without_chain_ignores_links
    {FrameSummary : Type} (StackSummary_format : list FrameSummary -> list string)
    (max_group_width max_group_depth : Z) (fuel : nat)
    (exc : TracebackException FrameSummary) (ctx : _ExceptionPrintContext) :
  format StackSummary_format max_group_width max_group_depth fuel exc false ctx
  = format StackSummary_format max_group_width max_group_depth fuel (unchain exc) true ctx.
Proof.
  revert exc ctx. induction fuel as [|fuel IH]; intros exc ctx; [reflexivity|].
  cbn [format]. unfold format_body.
  rewrite (proj2 (proj2 (proj2 (unchain_fields exc)))). cbn [rev app for_each].
  apply gen_eq_bind; [|intros _; apply gen_eq_refl].
  apply block_unchain. intros child c. apply IH.
Qed.

(** ** Capturing the sub-exceptions *)

Section InitFacts.

Variable T : Type.
Variable original_init_seen : BaseException -> list Z -> list Z.
Variable from_exception : BaseException -> option (list Z) -> T.

Lemma embed_filter_map seen_was_none _seen exceptions embedded :
  embed T from_exception seen_was_none _seen exceptions embedded
  = (embedded
     ++ map (fun exc => from_exception exc (if seen_was_none then None else Some _seen))
            (filter (fun exc => not_in_seen exc _seen) exceptions))%list.
Proof.
  revert embedded. induction exceptions as [|exc rest IH]; intros embedded; cbn [embed filter].
  - rewrite app_nil_r. reflexivity.
  - rewrite IH. destruct (not_in_seen exc _seen); cbn [map]; [|reflexivity].
    rewrite <- app_assoc. reflexivity.
Qed.

Lemma filter_none_seen (exceptions : list BaseException) :
  filter (fun exc => not_in_seen exc []) exceptions = exceptions.
Proof.
  induction exceptions as [|exc rest IH]; [reflexivity|].
  cbn [filter]. unfold not_in_seen at 1. cbn [existsb negb]. rewrite IH. reflexivity.
Qed.

(** X8: when the constructor is called without a [_seen] set, as it is
    for the exception being reported, the group captures every one of
    its sub-exceptions, in their order, each through [from_exception]
    with no [_seen] set of its own; none is dropped, however often it
    occurs, and the group's message is kept. *)
Theorem init_without_seen_captures_all
    (exc_value : BaseException) (message : string) (exceptions : list BaseException) :
  as_group exc_value = Some (message, exceptions) ->
  traceback_exception_init T original_init_seen from_exception exc_value None
  = mkInitResult (Some (map (fun exc => from_exception exc None) exceptions))
                 (Some message) None.
Proof.
  intros Hg. unfold traceback_exception_init. rewrite Hg. cbn [option_map].
  rewrite embed_filter_map, filter_none_seen. reflexivity.
Qed.

(** X9: called with a [_seen] set, the constructor captures exactly the
    sub-exceptions whose [id] is not in the set as the original
    [__init__] left it, in their order; each is captured with a copy of
    that same set, so a sub-exception that occurs twice is captured
    twice, and the caller's set gains nothing from the loop. *)
Theorem init_with_seen_skips_seen
    (exc_value : BaseException) (message : string) (exceptions : list BaseException)
    (_seen : list Z) :
  as_group exc_value = Some (message, exceptions) ->
  let seen' := original_init_seen exc_value _seen in
  traceback_exception_init T original_init_seen from_exception exc_value (Some _seen)
  = mkInitResult
      (Some (map (fun exc => from_exception exc (Some seen'))
                 (filter (fun exc => negb (existsb (Z.eqb (py_id exc)) seen')) exceptions)))
      (Some message) (Some seen').
Proof.
  intros Hg seen'. unfold traceback_exception_init. rewrite Hg. cbn [option_map].
  rewrite embed_filter_map. reflexivity.
Qed.

End InitFacts.

(** Nothing is dropped without a [_seen] set. *)
Lemma init_without_seen_captures_all_witness :
  self_exceptions (traceback_exception_init _ sample_original_init_seen sample_from_exception
                     sample_group_value None)
  = Some [(1, None); (2, None); (1, None); (3, None)].
Proof.
  rewrite (init_without_seen_captures_all _ sample_original_init_seen sample_from_exception
             sample_group_value "eg" _ eq_refl).
  reflexivity.
Defined.

(** With 3 already seen: 1, 2 and 1 again are captured, 3 is not. *)
Lemma init_with_seen_skips_seen_witness :
  self_exceptions (traceback_exception_init _ sample_original_init_seen sample_from_exception
                     sample_group_value (Some [3]))
  = Some [(1, Some [9; 3]); (2, Some [9; 3]); (1, Some [9; 3])].
Proof.
  rewrite (init_with_seen_skips_seen _ sample_original_init_seen sample_from_exception
             sample_group_value "eg" _ [3] eq_refl).
  reflexivity.
Defined.

(** ** Beyond the width limit *)

Lemma gen_eq_for_each_in {A : Type} (l : list A) (body body' : A -> Gen unit) :
  (forall x, In x l -> gen_eq (body x) (body' x)) ->
  gen_eq (for_each l body) (for_each l body').
Proof.
  induction l as [|x l IH]; intros H; cbn [for_each].
  - apply gen_eq_refl.
  - apply gen_eq_bind; [apply H; left; reflexivity|].
    intros _. apply IH. intros y Hy. apply H. right. exact Hy.
Qed.

Lemma nth_error_firstn_lt {A : Type} (l : list A) :
  forall n i, (i < n)%nat -> nth_error (firstn n l) i = nth_error l i.
Proof.
  induction l as [|x l IH]; intros [|n] [|i] H; cbn [firstn nth_error]; try reflexivity; try lia.
  apply IH. lia.
Qed.

(** X10: the exceptions of a group past the width limit are never
    formatted, nor looked at: two lists of the same length that agree on
    their first [max_group_width] exceptions give the same run, with any
    recursive call, so only the number of the others shows. *)
Theorem exceptions_past_width_not_formatted
    {FrameSummary : Type} (StackSummary_format : list FrameSummary -> list string)
    (max_group_width : Z)
    (format_rec : TracebackException FrameSummary -> bool -> Gen unit)
    (exc : TracebackException FrameSummary)
    (excs excs' : list (TracebackException FrameSummary)) (chain : bool)
    (ctx : _ExceptionPrintContext) :
  List.length excs = List.length excs' ->
  firstn (Z.to_nat max_group_width) excs = firstn (Z.to_nat max_group_width) excs' ->
  format_group StackSummary_format max_group_width format_rec exc excs chain ctx
  = format_group StackSummary_format max_group_width format_rec exc excs' chain ctx.
Proof.
  intros Hlen Hfirst. revert ctx.
  change (gen_eq (format_group StackSummary_format max_group_width format_rec exc excs chain)
                 (format_group StackSummary_format max_group_width format_rec exc excs' chain)).
  unfold format_group. rewrite Hlen.
  apply gen_eq_bind; [apply gen_eq_refl | intros c].
  apply gen_eq_bind; [apply gen_eq_refl | intros _].
  apply gen_eq_bind; [apply gen_eq_refl | intros _].
  apply gen_eq_bind; [apply gen_eq_refl | intros _].
  apply gen_eq_bind; [apply gen_eq_refl | intros _].
  apply gen_eq_bind; [| intros _; apply gen_eq_refl].
  apply gen_eq_for_each_in. intros i Hi. apply range_bounds in Hi. unfold slot.
  apply gen_eq_bind; [apply gen_eq_refl | intros _].
  apply gen_eq_bind; [apply gen_eq_refl | intros c'].
  apply gen_eq_bind; [apply gen_eq_refl | intros _].
  apply gen_eq_bind; [apply gen_eq_refl | intros _].
  apply gen_eq_bind; [| intros _; apply gen_eq_refl].
  destruct (Z.geb_spec i max_group_width) as [Hge|Hlt]; cbn [negb]; [apply gen_eq_refl|].
  rewrite !getitem_nth_error by lia.
  rewrite <- (nth_error_firstn_lt excs (Z.to_nat max_group_width) (Z.to_nat i)) by lia.
  rewrite <- (nth_error_firstn_lt excs' (Z.to_nat max_group_width) (Z.to_nat i)) by lia.
  rewrite Hfirst. apply gen_eq_refl.
Qed.

(** Twenty exceptions of which the last five are replaced. *)
Lemma exceptions_past_width_not_formatted_witness :
  format_group preformatted default_max_group_width
    (format preformatted default_max_group_width default_max_group_depth 1)
    (wide_group 20) (leaves 20) true new_ctx
  = format_group preformatted default_max_group_width
      (format preformatted default_max_group_width default_max_group_depth 1)
      (wide_group 20) (leaves 15 ++ repeat (wide_group 3) 5) true new_ctx.
Proof.
  apply (exceptions_past_width_not_formatted preformatted default_max_group_width
           (format preformatted default_max_group_width default_max_group_depth 1)
           (wide_group 20) (leaves 20) (leaves 15 ++ repeat (wide_group 3) 5) true new_ctx);
    reflexivity.
Defined.

(** ** A group of leaves *)

Lemma emit_out_depth_only (c c' : _ExceptionPrintContext) tg margin_char :
  exception_group_depth c = exception_group_depth c' ->
  emit_out c tg margin_char = emit_out c' tg margin_char.
Proof. intros H. unfold emit_out, emit_prefix, indent. rewrite H. reflexivity. Qed.

Lemma leaf_chain_out_depth_only
    {FrameSummary : Type} (StackSummary_format : list FrameSummary -> list string)
    (c c' : _ExceptionPrintContext) (exc : TracebackException FrameSummary) :
  exception_group_depth c = exception_group_depth c' ->
  leaf_chain_out StackSummary_format c exc = leaf_chain_out StackSummary_format c' exc.
Proof.
  intros H. unfold leaf_chain_out.
  induction (rev (chain_output exc)) as [|slot slots IH]; cbn [flat_map]; [reflexivity|].
  rewrite IH. f_equal. unfold leaf_block_out.
  rewrite !(emit_out_depth_only c c' _ _ H).
  destruct (fst slot); [rewrite (emit_out_depth_only c c' _ _ H)|]; reflexivity.
Qed.

Lemma slot_header_not_closing (c : _ExceptionPrintContext) (i : Z) (title : string) :
  is_closing_frame (slot_header c i title) = false.
Proof.
  unfold is_closing_frame, slot_header, indent, Py.str_mul.
  rewrite lstrip_spaces_app. destruct (i =? 0); reflexivity.
Qed.

Section FlatGroup.

Context {FrameSummary : Type}.
Variable StackSummary_format : list FrameSummary -> list string.
Variables max_group_width max_group_depth : Z.
Variable k : nat.
Local Abbreviation TE := (TracebackException FrameSummary).
Local Abbreviation format_rec :=
  (format StackSummary_format max_group_width max_group_depth (S k)).

(** The loop over the last slots of a group whose exceptions are leaves:
    [before] has been rendered, [children] is still to come. *)
Lemma flat_slots_run (sn : list Z) (d : Z) (children : list TE) :
  forall before : list TE,
    children <> [] ->
    Forall leaf_chain children ->
    Z.of_nat (List.length (before ++ children)) <= max_group_width ->
    runs (for_each (map Z.of_nat (seq (List.length before) (List.length children)))
            (slot max_group_width format_rec (before ++ children) true
                  (Z.of_nat (List.length (before ++ children)))
                  (Z.of_nat (List.length (before ++ children)))))
         (mkCtx sn d false) (mkCtx sn d false)
         (flat_slots_out StackSummary_format d (List.length before) children
          ++ [mkYielded (d + 1) (closing_frame (mkCtx [] (d + 1) false))]).
Proof.
  induction children as [|child rest IH]; intros before Hne Hleaves Hwidth; [contradiction|].
  inversion Hleaves as [|? ? Hleaf Hrest]; subst.
  set (excs := (before ++ child :: rest)%list) in *.
  set (i := Z.of_nat (List.length before)).
  assert (Hget : Py.getitem excs i = Some child).
  { subst i excs. rewrite getitem_nth_error by lia. rewrite Nat2Z.id.
    rewrite nth_error_app2 by lia. rewrite Nat.sub_diag. reflexivity. }
  assert (Hlen : Z.of_nat (List.length excs)
                 = i + 1 + Z.of_nat (List.length rest)).
  { subst i excs. rewrite length_app. cbn [List.length]. lia. }
  assert (Htrunc : (i >=? max_group_width) = false).
  { destruct (Z.geb_spec i max_group_width); [lia | reflexivity]. }
  cbn [List.length seq map for_each]. fold i.
  unfold flat_slots_out. cbn [List.length seq combine flat_map fst snd]. fold i.
  destruct rest as [|child' rest'].
  - (* the last slot *)
    assert (Hlast : (i =? Z.of_nat (List.length excs) - 1) = true).
    { apply Z.eqb_eq. cbn [List.length] in Hlen. lia. }
    pose proof (slot_runs max_group_width format_rec excs true
                  (Z.of_nat (List.length excs)) (Z.of_nat (List.length excs)) i
                  (mkCtx sn d false) _ (mkCtx sn (d + 1) true)
                  (leaf_chain_out StackSummary_format (mkCtx sn (d + 1) true) child)
                  eq_refl) as Hslot.
    rewrite Hlast, Htrunc, Hget in Hslot. cbn [negb] in Hslot.
    specialize (Hslot (leaf_chain_runs _ _ _ k child _ Hleaf)).
    cbn [need_close set_need_close set_depth andb exception_group_depth] in Hslot.
    cbn [seq combine flat_map map for_each app].
    eapply runs_eq; [eapply runs_bind; [exact Hslot | apply runs_ret] | |].
    + unfold set_depth, set_need_close. cbn [seen need_close exception_group_depth].
      f_equal. lia.
    + rewrite !app_nil_r. cbn [app].
      rewrite (leaf_chain_out_depth_only StackSummary_format (mkCtx sn (d + 1) true)
                 (mkCtx [] (d + 1) false) child eq_refl).
      reflexivity.
  - (* a slot before the last *)
    assert (Hlast : (i =? Z.of_nat (List.length excs) - 1) = false).
    { apply Z.eqb_neq. cbn [List.length] in Hlen. lia. }
    pose proof (slot_runs max_group_width format_rec excs true
                  (Z.of_nat (List.length excs)) (Z.of_nat (List.length excs)) i
                  (mkCtx sn d false) _ (mkCtx sn (d + 1) false)
                  (leaf_chain_out StackSummary_format (mkCtx sn (d + 1) false) child)
                  eq_refl) as Hslot.
    rewrite Hlast, Htrunc, Hget in Hslot. cbn [negb] in Hslot.
    specialize (Hslot (leaf_chain_runs _ _ _ k child _ Hleaf)).
    cbn [need_close set_need_close set_depth andb exception_group_depth] in Hslot.
    rewrite app_nil_r in Hslot.
    replace (set_depth (d + 1 - 1) (mkCtx sn (d + 1) false)) with (mkCtx sn d false) in Hslot
      by (unfold set_depth; cbn [seen need_close]; f_equal; lia).
    specialize (IH (before ++ [child])%list ltac:(discriminate) Hrest).
    rewrite <- app_assoc in IH. cbn [app] in IH. fold excs in IH.
    rewrite length_app in IH. cbn [List.length] in IH.
    rewrite Nat.add_1_r in IH. specialize (IH Hwidth).
    eapply runs_eq; [eapply runs_bind; [exact Hslot | exact IH] | reflexivity |].
    unfold flat_slots_out. rewrite <- !app_assoc. cbn [app].
    rewrite (leaf_chain_out_depth_only StackSummary_format (mkCtx sn (d + 1) false)
               (mkCtx [] (d + 1) false) child eq_refl).
    reflexivity.
Qed.

End FlatGroup.

Lemma range_of_nat (n : nat) : Py.range (Z.of_nat n) = map Z.of_nat (seq 0 n).
Proof. unfold Py.range. rewrite Nat2Z.id. reflexivity. Qed.

Lemma closing_frames_cons (y : Yielded) (out : list Yielded) :
  closing_frames (y :: out)
  = ((if is_closing_frame (text y) then 1 else 0) + closing_frames out)%nat.
Proof. unfold closing_frames. cbn [filter]. destruct (is_closing_frame (text y)); reflexivity. Qed.

Lemma closing_frames_flat_slots
    {FrameSummary : Type} (StackSummary_format : list FrameSummary -> list string)
    (d : Z) (children : list (TracebackException FrameSummary)) :
  d + 1 <> 0 ->
  forall start, closing_frames (flat_slots_out StackSummary_format d start children) = O.
Proof.
  intros Hd. unfold flat_slots_out.
  induction children as [|child rest IH]; intros start; [reflexivity|].
  cbn [List.length seq combine flat_map fst snd app].
  rewrite closing_frames_cons. cbn [text]. rewrite slot_header_not_closing.
  rewrite closing_frames_app, (IH (S start)).
  rewrite (closing_frames_none (leaf_chain_out _ _ _))
    by (apply leaf_chain_out_no_frame_line; exact Hd).
  reflexivity.
Qed.

(** X11: a top-level group without followed links whose exceptions are
    leaves, at least one and no more than [max_group_width], is rendered
    from a fresh context as its own texts, then for each exception in
    order the header of its slot, numbered from 1, and its whole block,
    then one closing frame, the only one of the output; the context is
    fresh again at the end. *)
Theorem flat_group_rendering
    {FrameSummary : Type} (StackSummary_format : list FrameSummary -> list string)
    (max_group_width max_group_depth : Z)
    (exc : TracebackException FrameSummary)
    (excs : list (TracebackException FrameSummary)) (k : nat) :
  exceptions exc = Some excs ->
  unlinked exc ->
  excs <> [] ->
  Forall leaf_chain excs ->
  Z.of_nat (List.length excs) <= max_group_width ->
  0 <= max_group_depth ->
  traceback_exception_format StackSummary_format max_group_width max_group_depth
    (2 + k) exc true None
  = Returned tt new_ctx
      (toplevel_group_head StackSummary_format exc
       ++ flat_slots_out StackSummary_format 1 0 excs
       ++ [mkYielded 2 (closing_frame (mkCtx [] 2 false))])
  /\ closing_frames
       (toplevel_group_head StackSummary_format exc
        ++ flat_slots_out StackSummary_format 1 0 excs
        ++ [mkYielded 2 (closing_frame (mkCtx [] 2 false))]) = 1%nat.
Proof.
  intros Hexcs Hunlinked Hne Hleaves Hwidth Hdepth. split.
  - unfold traceback_exception_format.
    change (runs (format_body StackSummary_format max_group_width max_group_depth
                    (format StackSummary_format max_group_width max_group_depth (S k))
                    exc true)
                 new_ctx new_ctx
                 (toplevel_group_head StackSummary_format exc
                  ++ flat_slots_out StackSummary_format 1 0 excs
                  ++ [mkYielded 2 (closing_frame (mkCtx [] 2 false))])).
    pose proof (flat_slots_run StackSummary_format max_group_width max_group_depth k
                  [] 1 excs [] Hne Hleaves Hwidth) as Hslots.
    cbn [app List.length] in Hslots.
    set (format_rec := format StackSummary_format max_group_width max_group_depth (S k)) in *.
    unfold format_body.
    rewrite chain_output_step, (chained_unlinked exc Hunlinked). cbn [rev app for_each].
    unfold block. rewrite Hexcs. unfold format_group, new_ctx.
    assert (Hn : n_slots max_group_width (Z.of_nat (List.length excs))
                 = Z.of_nat (List.length excs)).
    { unfold n_slots. destruct (Z.leb_spec (Z.of_nat (List.length excs)) max_group_width);
        [reflexivity | lia]. }
    rewrite Hn, range_of_nat.
    assert (Hgt : (0 >? max_group_depth) = false).
    { destruct (Z.gtb_spec 0 max_group_depth); [lia | reflexivity]. }
    unfold toplevel_group_head.
    destruct (Nat.eqb (List.length (stack exc)) 0); cbn [negb];
      (eapply runs_eq;
       [ repeat (cbv beta; norm_ctx;
                 cbn [exception_group_depth set_depth set_need_close need_close
                      Z.add Z.eqb Pos.add Pos.eqb Pos.succ];
                 rewrite ?Hgt;
                 first [ exact Hslots | gen_step ])
       | reflexivity
       | cbn [app]; rewrite ?app_nil_r, <- ?app_assoc; cbn [app]; reflexivity ]).
  - rewrite !closing_frames_app.
    rewrite (closing_frames_flat_slots StackSummary_format 1 excs ltac:(lia) 0%nat).
    assert (Hhead : closing_frames (toplevel_group_head StackSummary_format exc) = O).
    { apply closing_frames_none. unfold toplevel_group_head. apply Forall_app. split.
      - destruct (Nat.eqb (List.length (stack exc)) 0); [constructor|].
        apply Forall_app. split; apply emit_out_no_frame_line; simpl; auto; lia.
      - apply emit_out_no_frame_line; simpl; auto; lia. }
    rewrite Hhead. reflexivity.
Qed.

(** Three leaves, the second with a cause. *)
Lemma flat_group_rendering_witness :
  lines_of (render 2 (group "ExceptionGroup: eg (3 sub-exceptions)"
                        [leaf "ValueError: 1"; caused_sample; leaf "TypeError: 3"]) true)
  = ["  | ExceptionGroup: eg (3 sub-exceptions)" ++ nl;
     "  +-+---------------- 1 ----------------" ++ nl;
     "    | ValueError: 1" ++ nl;
     "    +---------------- 2 ----------------" ++ nl;
     "    | KeyError: 'k'" ++ nl;
     "    | " ++ nl
       ++ "    | The above exception was the direct cause of the following exception:" ++ nl
       ++ "    | " ++ nl;
     "    | ValueError: bad" ++ nl;
     "    +---------------- 3 ----------------" ++ nl;
     "    | TypeError: 3" ++ nl;
     "    +------------------------------------" ++ nl].
Proof.
  refine (eq_trans
            (f_equal lines_of
               (proj1 (flat_group_rendering preformatted default_max_group_width
                         default_max_group_depth
                         (group "ExceptionGroup: eg (3 sub-exceptions)"
                                [leaf "ValueError: 1"; caused_sample; leaf "TypeError: 3"])
                         [leaf "ValueError: 1"; caused_sample; leaf "TypeError: 3"] 0
                         eq_refl (conj eq_refl (or_introl eq_refl))
                         ltac:(discriminate)
                         ltac:(unfold leaf_chain; simpl; repeat constructor)
                         ltac:(vm_compute; discriminate)
                         ltac:(vm_compute; discriminate)))) _).
  vm_compute. reflexivity.
Defined.

(** ** An empty group in the last slot *)

Lemma empty_nested_group_runs
    {FrameSummary : Type} (StackSummary_format : list FrameSummary -> list string)
    (max_group_width max_group_depth : Z) (fuel : nat)
    (exc : TracebackException FrameSummary) (ctx : _ExceptionPrintContext) :
  exceptions exc = Some [] ->
  unlinked exc ->
  exception_group_depth ctx <= max_group_depth ->
  exception_group_depth ctx <> 0 ->
  runs (format StackSummary_format max_group_width max_group_depth (S fuel) exc true)
       ctx (set_need_close false ctx) (nested_group_head StackSummary_format ctx exc).
Proof.
  intros Hexcs Hu Hdepth Hnz. cbn [format]. unfold format_body.
  rewrite chain_output_step, (chained_unlinked exc Hu). cbn [rev app for_each].
  unfold block. rewrite Hexcs.
  eapply runs_eq; [eapply runs_bind; [|apply runs_ret] | reflexivity | apply app_nil_r].
  eapply runs_bind with (out1 := []); [apply runs_ret|]. eapply runs_get. cbv beta.
  destruct (Z.gtb_spec (exception_group_depth ctx) max_group_depth) as [|_]; [lia|].
  unfold format_group. eapply runs_get. cbv beta.
  cbn [List.length Z.of_nat].
  rewrite (range_nonpos (n_slots max_group_width 0))
    by (unfold n_slots; destruct (Z.leb_spec 0 max_group_width); lia).
  unfold nested_group_head.
  destruct (Z.eqb_spec (exception_group_depth ctx) 0) as [|_]; [contradiction|].
  destruct (Nat.eqb (List.length (stack exc)) 0); cbn [negb];
    (eapply runs_eq;
     [ repeat (cbv beta; gen_step)
     | reflexivity
     | cbn [app]; rewrite ?app_nil_r;
       rewrite ?(emit_out_depth_only (set_need_close false ctx) ctx) by reflexivity;
       reflexivity ]).
Qed.

(** X12: when the last exception of a group is itself a group without
    exceptions (and without followed links, within the depth limit), the
    last slot yields its header and the texts of that empty group and no
    closing frame: the empty group clears [need_close] without yielding,
    so the frame owed for the slot is never drawn. *)
Theorem empty_last_group_drops_closing_frame
    {FrameSummary : Type} (StackSummary_format : list FrameSummary -> list string)
    (max_group_width max_group_depth : Z) (fuel : nat)
    (excs : list (TracebackException FrameSummary)) (num_excs n i : Z)
    (child : TracebackException FrameSummary) (ctx : _ExceptionPrintContext) :
  i = n - 1 -> 0 <= i < max_group_width ->
  Py.getitem excs i = Some child ->
  exceptions child = Some [] ->
  unlinked child ->
  exception_group_depth ctx + 1 <= max_group_depth ->
  exception_group_depth ctx + 1 <> 0 ->
  let ctx_in := set_depth (exception_group_depth ctx + 1) (set_need_close true ctx) in
  let out := mkYielded (exception_group_depth ctx)
                       (slot_header ctx i (Py.str_of_int (i + 1)))
             :: nested_group_head StackSummary_format ctx_in child in
  runs (slot max_group_width
             (format StackSummary_format max_group_width max_group_depth (S fuel))
             excs true num_excs n i)
       ctx (set_need_close false ctx) out
  /\ closing_frames out = O.
Proof.
  intros Hi Hrange Hget Hempty Hu Hdepth Hnz ctx_in out. split.
  - pose proof (slot_runs max_group_width
                  (format StackSummary_format max_group_width max_group_depth (S fuel))
                  excs true num_excs n i ctx ctx_in (set_need_close false ctx_in)
                  (nested_group_head StackSummary_format ctx_in child)) as H.
    assert (Hlast : (i =? n - 1) = true) by (apply Z.eqb_eq; exact Hi).
    rewrite Hlast in H. specialize (H eq_refl).
    destruct (Z.geb_spec i max_group_width) as [|_]; [lia|]. cbn [negb andb] in H.
    rewrite Hget in H. cbn [need_close set_need_close] in H. rewrite app_nil_r in H.
    eapply runs_eq; [apply H | | reflexivity].
    + apply empty_nested_group_runs; subst ctx_in; simpl; auto.
    + subst ctx_in. destruct ctx as [sn d nc]. unfold set_depth, set_need_close.
      cbn [seen need_close exception_group_depth]. f_equal. lia.
  - subst out. rewrite closing_frames_cons. cbn [text].
    rewrite slot_header_not_closing. cbn [Nat.add].
    apply closing_frames_none. unfold nested_group_head.
    assert (Hin : exception_group_depth ctx_in <> 0) by (subst ctx_in; simpl; exact Hnz).
    apply Forall_app. split.
    + destruct (Nat.eqb (List.length (stack child)) 0); [constructor|].
      apply Forall_app. split; apply emit_out_no_frame_line; auto.
    + apply emit_out_no_frame_line; auto.
Qed.

(** A leaf and then an empty group: the rendering ends unframed. *)
Lemma empty_last_group_drops_closing_frame_witness :
  lines_of (render 3 (group "ExceptionGroup: outer (2 sub-exceptions)"
                        [leaf "ValueError: 1"; group "ExceptionGroup: none" []]) true)
  = ["  | ExceptionGroup: outer (2 sub-exceptions)" ++ nl;
     "  +-+---------------- 1 ----------------" ++ nl;
     "    | ValueError: 1" ++ nl;
     "    +---------------- 2 ----------------" ++ nl;
     "    | ExceptionGroup: none" ++ nl]
  /\ runs (slot default_max_group_width
                (format preformatted default_max_group_width default_max_group_depth 1)
                [leaf "ValueError: 1"; group "ExceptionGroup: none" []] true 2 2 1)
          (mkCtx [] 1 false) (mkCtx [] 1 false)
          [mkYielded 1 ("    +---------------- 2 ----------------" ++ nl);
           mkYielded 2 ("    | ExceptionGroup: none" ++ nl)].
Proof.
  split; [vm_compute; reflexivity|].
  exact (proj1 (empty_last_group_drops_closing_frame preformatted default_max_group_width
                  default_max_group_depth 0
                  [leaf "ValueError: 1"; group "ExceptionGroup: none" []] 2 2 1
                  (group "ExceptionGroup: none" []) (mkCtx [] 1 false)
                  eq_refl ltac:(unfold default_max_group_width; lia)
                  eq_refl eq_refl (conj eq_refl (or_introl eq_refl))
                  ltac:(vm_compute; discriminate) ltac:(vm_compute; discriminate))).
Defined.

(** ** The run of a group, slot by slot *)

Section GroupRun.

Context {FrameSummary : Type}.
Variable max_group_width : Z.
Variable format_rec : TracebackException FrameSummary -> bool -> Gen unit.
Variable chain : bool.
Variable sn : list Z.
Variable d : Z.
Local Abbreviation TE := (TracebackException FrameSummary).
Local Abbreviation c0 := (mkCtx sn d false).

(** One numbered slot, run between two slots of the loop. *)
Lemma numbered_slot_run (excs : list TE) (m n : Z) (i : nat) (child : TE) (last : bool) :
  nth_error excs i = Some child ->
  Z.of_nat i < max_group_width ->
  (Z.of_nat i =? n - 1) = last ->
  child_runs_ok format_rec chain child ->
  runs (slot max_group_width format_rec excs chain m n (Z.of_nat i)) c0 c0
       (slot_out format_rec chain sn d i child last).
Proof.
  intros Hnth Hw Hlast Hok.
  destruct (Hok (mkCtx sn (d + 1) last)) as (c' & out & Hrun & Hs & Hd & Hsame).
  pose proof (slot_runs max_group_width format_rec excs chain m n (Z.of_nat i)
                c0 (mkCtx sn (d + 1) last) c' out) as H.
  rewrite Hlast in H.
  assert (Hin : mkCtx sn (d + 1) last
                = set_depth (exception_group_depth c0 + 1)
                    (if last then set_need_close true c0 else c0))
    by (destruct last; reflexivity).
  specialize (H Hin).
  destruct (Z.geb_spec (Z.of_nat i) max_group_width) as [|_]; [lia|]. cbn [negb] in H.
  rewrite getitem_nth_error, Nat2Z.id, Hnth in H by lia. specialize (H Hrun).
  unfold slot_out. cbv zeta. unfold runs in Hrun. rewrite Hrun.
  cbn [yields_of need_close_of].
  destruct c' as [sn' d' nc']. cbn [seen exception_group_depth need_close] in *. subst sn' d'.
  eapply runs_eq; [exact H | |].
  - destruct last; cbn [andb].
    + destruct nc'; unfold set_depth, set_need_close;
        cbn [seen need_close exception_group_depth]; f_equal; lia.
    + specialize (Hsame eq_refl). injection Hsame as ->.
      unfold set_depth; cbn [seen need_close exception_group_depth]; f_equal; lia.
  - destruct last, nc'; reflexivity.
Qed.

(** The loop over numbered slots: [before] has been rendered, [children]
    is to come and [after] will not be visited by these turns. *)
Lemma numbered_slots_run (m n : Z) (closes : bool) (children : list TE) :
  forall before after : list TE,
    Forall (child_runs_ok format_rec chain) children ->
    Z.of_nat (List.length before + List.length children) <= max_group_width ->
    (if closes then Z.of_nat (List.length before + List.length children) = n
     else Z.of_nat (List.length before + List.length children) <= n - 1) ->
    runs (for_each (map Z.of_nat (seq (List.length before) (List.length children)))
            (slot max_group_width format_rec (before ++ children ++ after)%list chain m n))
         c0 c0
         (numbered_slots_out format_rec chain sn d (List.length before) children closes).
Proof.
  induction children as [|child rest IH]; intros before after Hok Hw Hn.
  - apply runs_ret.
  - inversion Hok as [|? ? Hchild Hrest]; subst.
    cbn [List.length seq map for_each numbered_slots_out].
    cbn [List.length] in Hw, Hn.
    eapply runs_bind.
    + apply numbered_slot_run; [| lia | | exact Hchild].
      * rewrite nth_error_app2 by lia. rewrite Nat.sub_diag. reflexivity.
      * destruct closes, rest as [|child' rest']; cbn [andb List.length] in *;
          first [ apply Z.eqb_eq; lia | apply Z.eqb_neq; lia ].
    + specialize (IH (before ++ [child])%list after Hrest).
      rewrite <- app_assoc in IH. cbn [app] in IH.
      rewrite length_app in IH. cbn [List.length] in IH. rewrite Nat.add_1_r in IH.
      apply IH; [lia|]. destruct closes; lia.
Qed.

(** The truncated slot, which is the last one. *)
Lemma truncated_slot_run (excs : list TE) (m n : Z) :
  n - 1 = max_group_width ->
  runs (slot max_group_width format_rec excs chain m n max_group_width) c0 c0
       (truncated_slot_out max_group_width sn d (m - max_group_width)).
Proof.
  intros Hn.
  pose proof (slot_runs max_group_width format_rec excs chain m n max_group_width
                c0 (mkCtx sn (d + 1) true) (mkCtx sn (d + 1) true)
                (emit_out (mkCtx sn (d + 1) true)
                   (Str (more_exceptions_line (m - max_group_width))) None)) as H.
  assert (Hlast : (max_group_width =? n - 1) = true) by (apply Z.eqb_eq; lia).
  rewrite Hlast in H. specialize (H eq_refl).
  destruct (Z.geb_spec max_group_width max_group_width) as [_|]; [|lia]. cbn [negb] in H.
  specialize (H (runs_emit _ _ _)).
  eapply runs_eq; [exact H | | reflexivity].
  cbn [andb need_close]. unfold set_depth, set_need_close.
  cbn [seen need_close exception_group_depth]. f_equal. lia.
Qed.

(** The whole loop [for i in range(n)] of a group. *)
Lemma group_slots_run (excs : list TE) :
  Forall (child_runs_ok format_rec chain) (firstn (Z.to_nat max_group_width) excs) ->
  runs (for_each (Py.range (n_slots max_group_width (Z.of_nat (List.length excs))))
          (slot max_group_width format_rec excs chain (Z.of_nat (List.length excs))
                (n_slots max_group_width (Z.of_nat (List.length excs)))))
       c0 c0 (group_slots_out max_group_width format_rec chain sn d excs).
Proof.
  intros Hok. unfold n_slots, group_slots_out. cbv zeta.
  destruct (Z.leb_spec (Z.of_nat (List.length excs)) max_group_width) as [Hle|Hgt].
  - rewrite range_of_nat.
    pose proof (numbered_slots_run (Z.of_nat (List.length excs)) (Z.of_nat (List.length excs))
                  true excs [] []) as H.
    cbn [app List.length Nat.add] in H. rewrite app_nil_r in H.
    apply H; [|lia|reflexivity].
    rewrite firstn_all2 in Hok by lia. exact Hok.
  - destruct (Z.ltb_spec max_group_width 0) as [Hneg|Hpos].
    + rewrite range_nonpos by lia. apply runs_ret.
    + rewrite range_snoc by lia.
      replace (max_group_width + 1 - 1) with max_group_width by lia.
      eapply runs_for_each_snoc; [|apply truncated_slot_run; lia].
      pose proof (numbered_slots_run (Z.of_nat (List.length excs)) (max_group_width + 1)
                    false (firstn (Z.to_nat max_group_width) excs) []
                    (skipn (Z.to_nat max_group_width) excs) Hok) as H.
      cbn [app List.length Nat.add] in H. rewrite firstn_skipn in H.
      rewrite length_firstn, Nat.min_l in H by lia.
      unfold Py.range. apply H; lia.
Qed.

End GroupRun.

(** The group branch, run from any context. *)
Lemma format_group_runs
    {FrameSummary : Type} (StackSummary_format : list FrameSummary -> list string)
    (max_group_width : Z)
    (format_rec : TracebackException FrameSummary -> bool -> Gen unit)
    (exc : TracebackException FrameSummary) (excs : list (TracebackException FrameSummary))
    (chain : bool) (ctx : _ExceptionPrintContext) :
  Forall (child_runs_ok format_rec chain) (firstn (Z.to_nat max_group_width) excs) ->
  runs (format_group StackSummary_format max_group_width format_rec exc excs chain)
       ctx (set_need_close false ctx)
       (group_out StackSummary_format max_group_width format_rec chain ctx exc excs).
Proof.
  intros Hok. unfold format_group, group_out, group_head_out.
  eapply runs_get. cbv beta zeta.
  destruct ctx as [sn d nc]. cbn [exception_group_depth seen].
  destruct (Z.eqb_spec d 0) as [E0|NE0].
  - subst d.
    pose proof (group_slots_run max_group_width format_rec chain sn 1 excs Hok) as Hslots.
    destruct (Nat.eqb (List.length (stack exc)) 0); cbn [negb];
      (eapply runs_eq;
       [ repeat (cbv beta;
                 cbn [exception_group_depth set_depth set_need_close seen need_close
                      Z.add Z.eqb Pos.add Pos.eqb Pos.succ];
                 first [ exact Hslots | gen_step ])
       | reflexivity
       | cbn [app exception_group_depth set_depth]; rewrite ?app_nil_r, <- ?app_assoc;
         reflexivity ]).
  - pose proof (group_slots_run max_group_width format_rec chain sn d excs Hok) as Hslots.
    destruct (Nat.eqb (List.length (stack exc)) 0); cbn [negb];
      (eapply runs_eq;
       [ repeat (cbv beta;
                 cbn [exception_group_depth set_depth set_need_close seen need_close];
                 first [ exact Hslots | gen_step ])
       | reflexivity
       | cbn [app exception_group_depth set_depth]; rewrite ?app_nil_r, <- ?app_assoc;
         rewrite ?(emit_out_depth_only (mkCtx sn d false) (mkCtx sn d nc)) by reflexivity;
         reflexivity ]).
Qed.

(** [block] on a group within the depth limit is the group branch. *)
Lemma block_group_branch
    {FrameSummary : Type} (StackSummary_format : list FrameSummary -> list string)
    (max_group_width max_group_depth : Z)
    (format_rec : TracebackException FrameSummary -> bool -> Gen unit) (chain : bool)
    (exc : TracebackException FrameSummary) (excs : list (TracebackException FrameSummary))
    (ctx : _ExceptionPrintContext) :
  exceptions exc = Some excs ->
  exception_group_depth ctx <= max_group_depth ->
  block StackSummary_format max_group_width max_group_depth format_rec chain (None, exc) ctx
  = format_group StackSummary_format max_group_width format_rec exc excs chain ctx.
Proof.
  intros Hexcs Hd. unfold block. rewrite Hexcs. unfold bind at 1 2, ret, get_ctx.
  destruct (Z.gtb_spec (exception_group_depth ctx) max_group_depth) as [|_]; [lia|].
  destruct (format_group _ _ _ _ _ _ ctx); reflexivity.
Qed.

(** With fuel for it, the recursive call on a child returns and leaves
    the context as the description of a group's run asks. *)
Lemma format_child_runs_ok
    {FrameSummary : Type} (StackSummary_format : list FrameSummary -> list string)
    (max_group_width max_group_depth : Z) (fuel : nat) (chain : bool)
    (child : TracebackException FrameSummary) :
  (rank child <= fuel)%nat ->
  child_runs_ok (format StackSummary_format max_group_width max_group_depth fuel) chain child.
Proof.
  intros Hrank c.
  assert (T : triple (ctx_inv (seen c) (negb (need_close c)) (exception_group_depth c))
                (format StackSummary_format max_group_width max_group_depth fuel child chain)
                (ctx_inv (seen c) (negb (need_close c)) (exception_group_depth c))
                (fun _ => True)).
  { apply (format_inv StackSummary_format max_group_width max_group_depth (fun _ _ => True));
      auto; intros; apply Forall_forall; auto. }
  destruct (T c) as (c' & out & E & (Hd & Hs & Hn) & _).
  { repeat split; auto. destruct (need_close c); [discriminate | reflexivity]. }
  exists c', out. split; [exact E|]. split; [exact Hs|]. split; [exact Hd|].
  intros Hclear. rewrite Hclear in Hn. specialize (Hn eq_refl).
  destruct c as [s0 d0 n0], c' as [s1 d1 n1]. simpl in *. subst. reflexivity.
Qed.

Lemma children_run_ok
    {FrameSummary : Type} (StackSummary_format : list FrameSummary -> list string)
    (max_group_width max_group_depth : Z) (fuel : nat) (chain : bool)
    (exc : TracebackException FrameSummary) (excs : list (TracebackException FrameSummary))
    (k : nat) :
  exceptions exc = Some excs ->
  (rank exc <= S fuel)%nat ->
  Forall (child_runs_ok (format StackSummary_format max_group_width max_group_depth fuel) chain)
         (firstn k excs).
Proof.
  intros Hexcs Hrank. apply Forall_forall. intros child Hin.
  apply format_child_runs_ok.
  assert (Hin' : In child excs)
    by (rewrite <- (firstn_skipn k excs); apply in_or_app; left; exact Hin).
  clear Hin. rename Hin' into Hin.
  pose proof (rank_child exc child excs Hexcs Hin). lia.
Qed.

(** ** Width: the slots of a group, in order *)

(** C3: with [max_group_width = 15], a group of [m] exceptions met
    within the depth limit runs [n = m] slots when [m <= 15] and
    [n = 16] when [m > 15], and its whole run, from any context and
    with the recursive calls the formatter itself makes, is: the group's
    own texts; then, for [m <= 15], the numbered slots of all its
    exceptions in their order, slot [i] titled [i + 1] and holding
    everything the call on the exception of index [i] yields, the last
    one closed by the closing frame that is owed; for [m > 15], the
    numbered slots of the first 15 exceptions in their order and then,
    as the last slot, the one titled ["..."] that holds the one line
    "and [m - 15] more exception", with an "s" when [m - 15 > 1],
    followed by the closing frame.  So 20 exceptions end in "and 5 more
    exceptions" and 16 in "and 1 more exception". *)
Theorem group_width_slots
    {FrameSummary : Type} (StackSummary_format : list FrameSummary -> list string)
    (max_group_depth : Z) (fuel : nat) (chain : bool)
    (exc : TracebackException FrameSummary) (excs : list (TracebackException FrameSummary))
    (ctx : _ExceptionPrintContext) :
  exceptions exc = Some excs ->
  exception_group_depth ctx <= max_group_depth ->
  (rank exc <= S fuel)%nat ->
  let m := Z.of_nat (List.length excs) in
  let n := n_slots default_max_group_width m in
  let format_rec :=
    format StackSummary_format default_max_group_width max_group_depth fuel in
  let top := exception_group_depth ctx =? 0 in
  let ctx1 := if top then set_depth 1 ctx else ctx in
  let d := exception_group_depth ctx1 in
  (m <= 15 -> n = m)
  /\ (m > 15 -> n = 16)
  /\ runs (block StackSummary_format default_max_group_width max_group_depth format_rec
                 chain (None, exc))
          ctx (set_need_close false ctx)
          (group_head_out StackSummary_format top ctx1 exc
           ++ group_slots_out default_max_group_width format_rec chain (seen ctx) d excs)
  /\ (m <= 15 ->
      group_slots_out default_max_group_width format_rec chain (seen ctx) d excs
      = numbered_slots_out format_rec chain (seen ctx) d 0 excs true)
  /\ (m > 15 ->
      group_slots_out default_max_group_width format_rec chain (seen ctx) d excs
      = (numbered_slots_out format_rec chain (seen ctx) d 0 (firstn 15 excs) false
         ++ [mkYielded d (slot_header ctx1 15 "...");
             mkYielded (d + 1)
                       (Py.textwrap_indent (more_exceptions_line (m - 15))
                          (emit_prefix (mkCtx (seen ctx) (d + 1) true) None));
             mkYielded (d + 1) (closing_frame (mkCtx (seen ctx) (d + 1) true))])%list
      /\ List.length (firstn 15 excs) = 15%nat)
  /\ more_exceptions_line (20 - 15) = "and 5 more exceptions" ++ nl
  /\ more_exceptions_line (16 - 15) = "and 1 more exception" ++ nl.
Proof.
  intros Hexcs Hd Hrank m n format_rec top ctx1 d.
  pose proof (children_run_ok StackSummary_format default_max_group_width max_group_depth
                fuel chain exc excs (Z.to_nat default_max_group_width) Hexcs Hrank) as Hok.
  split; [|split; [|split; [|split; [|split; [|split; reflexivity]]]]].
  - intros Hle. subst n. unfold n_slots, default_max_group_width.
    destruct (Z.leb_spec m 15); [reflexivity | lia].
  - intros Hgt. subst n. unfold n_slots, default_max_group_width.
    destruct (Z.leb_spec m 15); [lia | reflexivity].
  - unfold runs.
    rewrite (block_group_branch StackSummary_format default_max_group_width max_group_depth
               format_rec chain exc excs ctx Hexcs Hd).
    exact (format_group_runs StackSummary_format default_max_group_width format_rec
             exc excs chain ctx Hok).
  - intros Hle. unfold group_slots_out, default_max_group_width. fold m.
    destruct (Z.leb_spec m 15); [reflexivity | lia].
  - intros Hgt. split.
    + unfold group_slots_out, default_max_group_width. fold m.
      destruct (Z.leb_spec m 15); [lia|]. cbn [Z.ltb Z.compare].
      reflexivity.
    + rewrite length_firstn. subst m. lia.
Qed.

(** Groups of 20, 16 and 15 plain exceptions, formatted from a fresh
    context. *)
Lemma group_width_slots_witness :
  lines_of (block preformatted default_max_group_width default_max_group_depth
                  (format preformatted default_max_group_width default_max_group_depth 1)
                  true (None, wide_group 20) new_ctx)
  = ("  | ExceptionGroup: many" ++ nl)
     :: List.app
       (flat_map
          (fun i => [(if (i =? 1)%nat then "  +-+" else "    +")
                     ++ "---------------- " ++ Py.str_of_int (Z.of_nat i)
                     ++ " ----------------" ++ nl;
                     "    | ValueError: " ++ Py.str_of_int (Z.of_nat i) ++ nl])
          (seq 1 15))
       ["    +---------------- ... ----------------" ++ nl;
         "    | and 5 more exceptions" ++ nl;
         "    +------------------------------------" ++ nl]
  /\ lines_of (render 2 (wide_group 16) true)
     = ("  | ExceptionGroup: many" ++ nl)
        :: List.app
          (flat_map
             (fun i => [(if (i =? 1)%nat then "  +-+" else "    +")
                        ++ "---------------- " ++ Py.str_of_int (Z.of_nat i)
                        ++ " ----------------" ++ nl;
                        "    | ValueError: " ++ Py.str_of_int (Z.of_nat i) ++ nl])
             (seq 1 15))
          ["    +---------------- ... ----------------" ++ nl;
            "    | and 1 more exception" ++ nl;
            "    +------------------------------------" ++ nl]
  /\ lines_of (render 2 (wide_group 15) true)
     = ("  | ExceptionGroup: many" ++ nl)
        :: List.app
          (flat_map
             (fun i => [(if (i =? 1)%nat then "  +-+" else "    +")
                        ++ "---------------- " ++ Py.str_of_int (Z.of_nat i)
                        ++ " ----------------" ++ nl;
                        "    | ValueError: " ++ Py.str_of_int (Z.of_nat i) ++ nl])
             (seq 1 15))
          ["    +------------------------------------" ++ nl].
Proof.
  split; [|split; vm_compute; reflexivity].
  refine (eq_trans
            (f_equal lines_of
               (proj1 (proj2 (proj2
                  (group_width_slots preformatted default_max_group_depth 1 true
                     (wide_group 20) (leaves 20) new_ctx
                     eq_refl ltac:(vm_compute; discriminate) ltac:(vm_compute; lia)))))) _).
  vm_compute. reflexivity.
Defined.

(** ** Zero and negative tunables: the amended claim *)

(** C6, as amended.  With [max_group_width = 0], a group within the
    depth limit that holds exceptions yields its own texts and then one
    slot only, the truncated one (header titled ["..."], the line "and
    [m] more exception(s)", the closing frame), whatever the recursive
    call is, which is never made; an empty group yields its own texts
    and no slot.  With [max_group_depth = 0], a group met at a depth
    above 0 yields only the truncation line, and a group met at depth 0
    takes the group branch: it is rendered as a group, with its texts
    and its slots at depth 1.  And whatever the two tunables are, zero
    and negative values included, the formatter returns without an
    error. *)
Theorem zero_tunables_degrade
    {FrameSummary : Type} (StackSummary_format : list FrameSummary -> list string)
    (format_rec : TracebackException FrameSummary -> bool -> Gen unit) (chain : bool)
    (exc : TracebackException FrameSummary) (excs : list (TracebackException FrameSummary))
    (ctx : _ExceptionPrintContext) :
  exceptions exc = Some excs ->
  let m := Z.of_nat (List.length excs) in
  let top := exception_group_depth ctx =? 0 in
  let ctx1 := if top then set_depth 1 ctx else ctx in
  let d := exception_group_depth ctx1 in
  n_slots 0 m = (if m =? 0 then 0 else 1)
  /\ (forall max_group_depth,
        exception_group_depth ctx <= max_group_depth ->
        excs <> [] ->
        runs (block StackSummary_format 0 max_group_depth format_rec chain (None, exc))
             ctx (set_need_close false ctx)
             (group_head_out StackSummary_format top ctx1 exc
              ++ [mkYielded d (slot_header ctx1 0 "...");
                  mkYielded (d + 1)
                            (Py.textwrap_indent (more_exceptions_line m)
                               (emit_prefix (mkCtx (seen ctx) (d + 1) true) None));
                  mkYielded (d + 1) (closing_frame (mkCtx (seen ctx) (d + 1) true))]))
  /\ (forall max_group_depth,
        exception_group_depth ctx <= max_group_depth ->
        excs = [] ->
        runs (block StackSummary_format 0 max_group_depth format_rec chain (None, exc))
             ctx (set_need_close false ctx)
             (group_head_out StackSummary_format top ctx1 exc))
  /\ (forall max_group_width,
        exception_group_depth ctx > 0 ->
        block StackSummary_format max_group_width 0 format_rec chain (None, exc) ctx
        = Returned tt ctx
            [mkYielded (exception_group_depth ctx)
                       (indent ctx ++ "| " ++ "... (max_group_depth is 0)" ++ nl)])
  /\ (forall max_group_width,
        exception_group_depth ctx = 0 ->
        block StackSummary_format max_group_width 0 format_rec chain (None, exc) ctx
        = format_group StackSummary_format max_group_width format_rec exc excs chain ctx)
  /\ (forall max_group_width fuel,
        exception_group_depth ctx = 0 ->
        (rank exc <= S fuel)%nat ->
        runs (block StackSummary_format max_group_width 0
                    (format StackSummary_format max_group_width 0 fuel) chain (None, exc))
             ctx (set_need_close false ctx)
             (group_head_out StackSummary_format true (set_depth 1 ctx) exc
              ++ group_slots_out max_group_width
                   (format StackSummary_format max_group_width 0 fuel) chain (seen ctx) 1 excs))
  /\ (forall max_group_width max_group_depth chain' ctx0,
        exists ctx' out, forall k,
          format StackSummary_format max_group_width max_group_depth
                 (rank exc + k) exc chain' ctx0 = Returned tt ctx' out).
Proof.
  intros Hexcs m top ctx1 d.
  assert (Hn : n_slots 0 m = (if m =? 0 then 0 else 1)).
  { unfold n_slots. destruct (Z.leb_spec m 0), (Z.eqb_spec m 0); lia. }
  assert (Hwidth0 : forall max_group_depth,
             exception_group_depth ctx <= max_group_depth ->
             runs (block StackSummary_format 0 max_group_depth format_rec chain (None, exc))
                  ctx (set_need_close false ctx)
                  (group_out StackSummary_format 0 format_rec chain ctx exc excs)).
  { intros max_group_depth Hd. unfold runs.
    rewrite (block_group_branch StackSummary_format 0 max_group_depth format_rec chain
               exc excs ctx Hexcs Hd).
    apply format_group_runs. constructor. }
  split; [exact Hn|]. split; [|split; [|split; [|split; [|split]]]].
  - intros max_group_depth Hd Hne.
    eapply runs_eq; [exact (Hwidth0 max_group_depth Hd) | reflexivity |].
    unfold group_out. cbv zeta. fold top. fold ctx1. fold d. f_equal.
    unfold group_slots_out. cbv zeta. fold m.
    destruct (Z.leb_spec m 0) as [Hle|_].
    { destruct excs; [contradiction | subst m; cbn [List.length] in Hle; lia]. }
    cbn [Z.ltb Z.compare Z.to_nat firstn numbered_slots_out app].
    unfold truncated_slot_out. rewrite Z.sub_0_r. reflexivity.
  - intros max_group_depth Hd Hnil.
    eapply runs_eq; [exact (Hwidth0 max_group_depth Hd) | reflexivity |].
    unfold group_out. cbv zeta. fold top. fold ctx1. fold d.
    rewrite Hnil. unfold group_slots_out. cbn. apply app_nil_r.
  - intros max_group_width Hd.
    unfold block, bind, ret, get_ctx. rewrite Hexcs.
    destruct (Z.gtb_spec (exception_group_depth ctx) 0) as [_|]; [|lia].
    rewrite emit_run. unfold emit_out, emit_prefix. cbn [blocks_of map app].
    destruct (Z.eqb_spec (exception_group_depth ctx) 0) as [|_]; [lia|].
    do 3 f_equal. unfold Py.textwrap_indent.
    change (Py.splitlines _) with ["... (max_group_depth is 0)" ++ nl].
    cbn [map Py.join]. rewrite PyFacts.app_nil_r_s, PyFacts.app_assoc_s. reflexivity.
  - intros max_group_width Hd.
    apply block_group_branch; [exact Hexcs | lia].
  - intros max_group_width fuel Hd Hrank. unfold runs.
    rewrite (block_group_branch StackSummary_format max_group_width 0
               (format StackSummary_format max_group_width 0 fuel) chain
               exc excs ctx Hexcs ltac:(lia)).
    eapply runs_eq;
      [ apply format_group_runs;
        exact (children_run_ok StackSummary_format max_group_width 0 fuel chain exc excs
                 (Z.to_nat max_group_width) Hexcs Hrank)
      | reflexivity | ].
    unfold group_out. rewrite Hd. reflexivity.
  - intros max_group_width max_group_depth chain' ctx0.
    destruct (format_returns StackSummary_format max_group_width max_group_depth
                exc chain' ctx0) as (ctx' & out & E & _).
    exists ctx', out. exact E.
Qed.

(** Width 0 on a group of two; depth limit 0 on a group met at depth 2,
    and on a group formatted from a fresh context, whose own group
    child, met at depth 2, is the one cut off. *)
Lemma zero_tunables_degrade_witness :
  block preformatted 0 default_max_group_depth (fun _ _ => raise IndexError) true
        (None, group "ExceptionGroup: eg (2 sub-exceptions)" [leaf "a"; leaf "b"]) new_ctx
  = Returned tt new_ctx
      [mkYielded 1 ("  | ExceptionGroup: eg (2 sub-exceptions)" ++ nl);
       mkYielded 1 ("  +-+---------------- ... ----------------" ++ nl);
       mkYielded 2 ("    | and 2 more exceptions" ++ nl);
       mkYielded 2 ("    +------------------------------------" ++ nl)]
  /\ block preformatted default_max_group_width 0 (fun _ _ => raise IndexError) true
           (None, group "ExceptionGroup: eg (2 sub-exceptions)" [leaf "a"; leaf "b"])
           (mkCtx [] 2 true)
     = Returned tt (mkCtx [] 2 true)
         [mkYielded 2 ("    | ... (max_group_depth is 0)" ++ nl)]
  /\ block preformatted default_max_group_width 0
           (format preformatted default_max_group_width 0 2) true
           (None, group "ExceptionGroup: outer (2 sub-exceptions)"
                        [leaf "ValueError: 1";
                         group "ExceptionGroup: inner (1 sub-exception)"
                               [leaf "TypeError: 2"]])
           new_ctx
     = Returned tt new_ctx
         [mkYielded 1 ("  | ExceptionGroup: outer (2 sub-exceptions)" ++ nl);
          mkYielded 1 ("  +-+---------------- 1 ----------------" ++ nl);
          mkYielded 2 ("    | ValueError: 1" ++ nl);
          mkYielded 1 ("    +---------------- 2 ----------------" ++ nl);
          mkYielded 2 ("    | ... (max_group_depth is 0)" ++ nl);
          mkYielded 2 ("    +------------------------------------" ++ nl)].
Proof.
  split; [|split].
  - refine (eq_trans
              (proj1 (proj2
                 (zero_tunables_degrade preformatted (fun _ _ => raise IndexError) true
                    (group "ExceptionGroup: eg (2 sub-exceptions)" [leaf "a"; leaf "b"])
                    [leaf "a"; leaf "b"] new_ctx eq_refl))
                 default_max_group_depth ltac:(vm_compute; discriminate)
                 ltac:(discriminate)) _).
    vm_compute. reflexivity.
  - exact (proj1 (proj2 (proj2 (proj2
             (zero_tunables_degrade preformatted (fun _ _ => raise IndexError) true
                (group "ExceptionGroup: eg (2 sub-exceptions)" [leaf "a"; leaf "b"])
                [leaf "a"; leaf "b"] (mkCtx [] 2 true) eq_refl))))
             default_max_group_width eq_refl).
  - refine (eq_trans
              (proj1 (proj2 (proj2 (proj2 (proj2 (proj2
                 (zero_tunables_degrade preformatted (fun _ _ => raise IndexError) true
                    (group "ExceptionGroup: outer (2 sub-exceptions)"
                           [leaf "ValueError: 1";
                            group "ExceptionGroup: inner (1 sub-exception)"
                                  [leaf "TypeError: 2"]])
                    [leaf "ValueError: 1";
                     group "ExceptionGroup: inner (1 sub-exception)" [leaf "TypeError: 2"]]
                    new_ctx eq_refl))))))
                 default_max_group_width 2%nat eq_refl ltac:(vm_compute; lia)) _).
    vm_compute. reflexivity.
Defined.
